(** * DUET-Screen / HyperVS1000: scorer, stage runners, scheduler, rank fusion

    A shallow embedding of the core of the pipeline:
    - [utils.py]      : [chunked], [deterministic_score]
    - [scheduler.py]  : [Task], [GPUScheduler], [dispatch]
    - [consensus.py]  : [weighted_average_rank], [weighted_reciprocal_rank_fusion]
    - [pipeline/dti.py], [pipeline/docking.py], [pipeline/mmgbsa.py]
    - [pipeline/aggregate.py] : [_load_stage], [run_aggregate]

    Conventions.
    - A Python [str] is represented by the byte string of its UTF-8 encoding
      (a Rocq [string]); [encode("utf-8")] distributes over concatenation, so
      joining and then encoding is joining the encodings.
    - Python [int] is [Z].
    - A Python [float] is represented by the rational number it denotes ([Q]).
      The value of [deterministic_score] is computed with the exact rounding of
      the int-to-float conversion (the division by 2**64 is exact in binary64).
      The arithmetic of the fusion engine and of the aggregator (sums, products
      and quotients of weights) is the exact rational arithmetic: rounding
      errors of binary64 are not modelled there.
    - A Python [dict] is an association list in insertion order with unique
      keys; exceptions are values of type [exn] in a [result]. *)

From Stdlib Require Import String Ascii DecimalString.
From Stdlib Require Import ZArith QArith List Bool Lia Lqa.
From Stdlib Require Import Permutation Sorted.
From Stdlib Require OrderedTypeEx.
Import ListNotations.

Local Open Scope string_scope.
Local Open Scope list_scope.
Local Open Scope Z_scope.

(* ------------------------------------------------------------------ *)
(** ** Exceptions and results *)

Inductive exn : Type :=
| ValueError (msg : string)
| FileNotFoundError (msg : string)
| RetryableError
| OtherError (msg : string).

Inductive result (A : Type) : Type :=
| Ok (a : A)
| Raise (e : exn).
Arguments Ok {A} a.
Arguments Raise {A} e.

Definition bind {A B : Type} (r : result A) (k : A -> result B) : result B :=
  match r with
  | Ok a => k a
  | Raise e => Raise e
  end.

Notation "x <- c1 ;; c2" := (bind c1 (fun x => c2))
  (at level 61, c1 at next level, right associativity).

Definition is_ok {A : Type} (r : result A) : bool :=
  match r with Ok _ => true | Raise _ => false end.

(* ------------------------------------------------------------------ *)
(** ** BLAKE2b (RFC 7693), unkeyed, as [hashlib.blake2b] computes it *)

Module Blake2b.

Definition w64 : Z := 2 ^ 64.

Definition add64 (a b : Z) : Z := (a + b) mod w64.

Definition rotr64 (x : Z) (n : Z) : Z :=
  Z.lor (Z.shiftr x n) ((Z.shiftl x (64 - n)) mod w64).

Definition IV : list Z :=
  [ 0x6a09e667f3bcc908; 0xbb67ae8584caa73b; 0x3c6ef372fe94f82b;
    0xa54ff53a5f1d36f1; 0x510e527fade682d1; 0x9b05688c2b3e6c1f;
    0x1f83d9abfb41bd6b; 0x5be0cd19137e2179 ].

Definition SIGMA : list (list nat) :=
  [ [0; 1; 2; 3; 4; 5; 6; 7; 8; 9; 10; 11; 12; 13; 14; 15];
    [14; 10; 4; 8; 9; 15; 13; 6; 1; 12; 0; 2; 11; 7; 5; 3];
    [11; 8; 12; 0; 5; 2; 15; 13; 10; 14; 3; 6; 7; 1; 9; 4];
    [7; 9; 3; 1; 13; 12; 11; 14; 2; 6; 5; 10; 4; 0; 15; 8];
    [9; 0; 5; 7; 2; 4; 10; 15; 14; 1; 11; 12; 6; 8; 3; 13];
    [2; 12; 6; 10; 0; 11; 8; 3; 4; 13; 7; 5; 15; 14; 1; 9];
    [12; 5; 1; 15; 14; 13; 4; 10; 0; 7; 6; 3; 9; 2; 8; 11];
    [13; 11; 7; 14; 12; 1; 3; 9; 5; 0; 15; 4; 8; 6; 2; 10];
    [6; 15; 14; 9; 11; 3; 0; 8; 12; 2; 13; 7; 1; 4; 10; 5];
    [10; 2; 8; 4; 7; 6; 1; 5; 15; 11; 9; 14; 3; 12; 13; 0] ]%nat.

Definition get (v : list Z) (i : nat) : Z := nth i v 0.

Fixpoint set (v : list Z) (i : nat) (x : Z) : list Z :=
  match v, i with
  | [], _ => []
  | _ :: r, O => x :: r
  | y :: r, S j => y :: set r j x
  end.

(** The mixing function G on the work vector. *)
Definition G (v : list Z) (a b c d : nat) (x y : Z) : list Z :=
  let v := set v a (add64 (add64 (get v a) (get v b)) x) in
  let v := set v d (rotr64 (Z.lxor (get v d) (get v a)) 32) in
  let v := set v c (add64 (get v c) (get v d)) in
  let v := set v b (rotr64 (Z.lxor (get v b) (get v c)) 24) in
  let v := set v a (add64 (add64 (get v a) (get v b)) y) in
  let v := set v d (rotr64 (Z.lxor (get v d) (get v a)) 16) in
  let v := set v c (add64 (get v c) (get v d)) in
  set v b (rotr64 (Z.lxor (get v b) (get v c)) 63).

Definition round (m : list Z) (v : list Z) (r : nat) : list Z :=
  let s := nth (r mod 10) SIGMA [] in
  let ms (i : nat) := get m (nth i s O) in
  let v := G v 0 4 8 12 (ms 0%nat) (ms 1%nat) in
  let v := G v 1 5 9 13 (ms 2%nat) (ms 3%nat) in
  let v := G v 2 6 10 14 (ms 4%nat) (ms 5%nat) in
  let v := G v 3 7 11 15 (ms 6%nat) (ms 7%nat) in
  let v := G v 0 5 10 15 (ms 8%nat) (ms 9%nat) in
  let v := G v 1 6 11 12 (ms 10%nat) (ms 11%nat) in
  let v := G v 2 7 8 13 (ms 12%nat) (ms 13%nat) in
  G v 3 4 9 14 (ms 14%nat) (ms 15%nat).

(** Compression function F: [h] is the chaining value, [m] the sixteen
    message words, [t] the byte counter, [last] the final-block flag. *)
Definition F (h : list Z) (m : list Z) (t : Z) (last : bool) : list Z :=
  let v := h ++ IV in
  let v := set v 12 (Z.lxor (get v 12) (t mod w64)) in
  let v := set v 13 (Z.lxor (get v 13) ((t / w64) mod w64)) in
  let v := if last then set v 14 (Z.lxor (get v 14) (w64 - 1)) else v in
  let v := fold_left (round m) (seq 0 12) v in
  map (fun i => Z.lxor (Z.lxor (get h i) (get v i)) (get v (i + 8)))
      (seq 0 8).

(** Little-endian word of the bytes [bs]. *)
Fixpoint le_word (bs : list Z) : Z :=
  match bs with
  | [] => 0
  | b :: r => b + 256 * le_word r
  end.

(** Sixteen 64-bit words of a block, zero-padded to 128 bytes. *)
Definition words (block : list Z) : list Z :=
  let padded := block ++ repeat 0 (128 - length block) in
  map (fun i => le_word (firstn 8 (skipn (8 * i) padded))) (seq 0 16).

Fixpoint absorb (fuel : nat) (h : list Z) (t : Z) (data : list Z) : list Z :=
  match fuel with
  | O => h
  | S fuel' =>
      if (length data <=? 128)%nat
      then F h (words data) (t + Z.of_nat (length data)) true
      else absorb fuel' (F h (words (firstn 128 data)) (t + 128) false)
                  (t + 128) (skipn 128 data)
  end.

Fixpoint le_bytes (n : nat) (x : Z) : list Z :=
  match n with
  | O => []
  | S k => x mod 256 :: le_bytes k (x / 256)
  end.

(** [blake2b(data, digest_size=nn).digest()] for 1 <= nn <= 8, no key. *)
Definition digest (nn : nat) (data : list Z) : list Z :=
  let h0 := set IV 0 (Z.lxor (get IV 0) (Z.lxor 0x01010000 (Z.of_nat nn))) in
  let h := absorb (S (length data)) h0 0 data in
  le_bytes nn (get h 0).

End Blake2b.

(* ------------------------------------------------------------------ *)
(** ** utils.py *)

Definition byte_of_ascii (c : ascii) : Z := Z.of_N (N_of_ascii c).

(** The bytes of [s.encode("utf-8")]. *)
Definition encode_utf8 (s : string) : list Z :=
  map byte_of_ascii (list_ascii_of_string s).

(** [sep.join(parts)]. *)
Fixpoint join (sep : string) (parts : list string) : string :=
  match parts with
  | [] => ""
  | [p] => p
  | p :: rest => (p ++ sep ++ join sep rest)%string
  end.

(** [int.from_bytes(bs, byteorder="big")]. *)
Definition int_from_bytes_big (bs : list Z) : Z :=
  fold_left (fun acc b => acc * 256 + b) bs 0.

(** [float(n)] for [0 <= n]: the integer nearest to [n] with at most 53
    significant bits, ties to even (every such integer below 2**1024 is a
    binary64 number). *)
Definition float_of_int (n : Z) : Z :=
  if n <? 2 ^ 53 then n
  else
    let e := Z.log2 n - 52 in
    let q := Z.shiftr n e in
    let r := n mod 2 ^ e in
    let half := 2 ^ (e - 1) in
    let q' := if (half <? r) || ((r =? half) && Z.odd q) then q + 1 else q in
    Z.shiftl q' e.

(** The 64-bit integer read from the 8-byte digest of the joined components. *)
Definition score_digest (components : list string) : Z :=
  int_from_bytes_big (Blake2b.digest 8 (encode_utf8 (join "::" components))).

(** [deterministic_score] over its positional arguments [components]:
    [int.from_bytes(digest, "big") / float(2**64)]. The int operand is
    converted to float first; dividing by a power of two is then exact. *)
Definition deterministic_score (components : list string) : Q :=
  Qmake (float_of_int (score_digest components)) (2 ^ 64).

(** [itertools.islice(iterator, size)] raises [ValueError] on a negative
    stop; otherwise it takes at most [size] items. [chunked] is a generator:
    the list of the blocks it yields, or the exception it raises. *)
Fixpoint chunked_loop {T : Type} (fuel : nat) (iterator : list T) (size : nat)
  : list (list T) :=
  match fuel with
  | O => []
  | S fuel' =>
      match firstn size iterator with
      | [] => []
      | block => block :: chunked_loop fuel' (skipn size iterator) size
      end
  end.

Definition chunked {T : Type} (iterable : list T) (size : Z)
  : result (list (list T)) :=
  if size <? 0
  then Raise (ValueError "Stop argument for islice() must be None or an integer: 0 <= x <= sys.maxsize.")
  else Ok (chunked_loop (S (length iterable)) iterable (Z.to_nat size)).

(* ------------------------------------------------------------------ *)
(** ** scheduler.py

    Tasks are values here: the tasks submitted to [dispatch] are taken to be
    distinct objects that only [dispatch] mutates, so the task recorded in a
    result is the task object as it is when [dispatch] returns. *)

(** [Task]: a work unit scheduled onto a device. *)
Record Task (P : Type) : Type := mkTask {
  name : string;
  payload : P;
  attempts : Z;
  metadata : list (string * string)
}.
Arguments mkTask {P} _ _ _ _.
Arguments name {P} _.
Arguments payload {P} _.
Arguments attempts {P} _.
Arguments metadata {P} _.

(** [Task(name=..., payload=...)] with the default fields. *)
Definition new_task {P : Type} (n : string) (p : P) : Task P :=
  mkTask n p 0 [].

(** [task.attempts += 1]. *)
Definition bump {P : Type} (t : Task P) : Task P :=
  mkTask (name t) (payload t) (attempts t + 1) (metadata t).


Record GPUScheduler : Type := mkScheduler {
  devices : list Z;
  max_retries : Z
}.

(** [GPUScheduler.__init__]. *)
Definition GPUScheduler_init (devs : list Z) (retries : Z) : result GPUScheduler :=
  match devs with
  | [] => Raise (ValueError "At least one device id is required.")
  | _ => Ok (mkScheduler devs retries)
  end.

(** [_device_infinite_iterator]: the generator's state is the position
    reached in the current pass over the device tuple; [next] restarts the
    pass when it is exhausted, then yields the device at the position. *)
Definition device_next (devs : list Z) (pos : nat) : Z * nat :=
  let p := if (pos <? length devs)%nat then pos else O in
  (nth p devs 0, S p).

Section Dispatch.
Context {P R W : Type}.

(** A worker is a callable with its own state [W]; it returns its result,
    signals [RetryableError], or raises anything else. *)
Definition worker_t : Type := W -> Task P -> Z -> W * result R.

Record loop_state : Type := mkLoop {
  wstate : W;
  queue : list (Task P);
  iter_pos : nat;
  results : list (Task P * Z * R);
  calls : list (Task P * Z)   (* every worker invocation, in order *)
}.

Variable self : GPUScheduler.
Variable worker : worker_t.

(** One iteration of the [while queue:] loop: the next loop state, or
    the final state with what [dispatch] returns or raises. *)
Definition dispatch_step (st : loop_state)
  : loop_state + loop_state * result (list (Task P * Z * R)) :=
  match queue st with
  | [] => inr (st, Ok (results st))
  | task :: rest =>
      let '(device, pos') := device_next (devices self) (iter_pos st) in
      let '(w', r) := worker (wstate st) task device in
      let log := calls st ++ [(task, device)] in
      match r with
      | Ok res =>
          inl (mkLoop w' rest pos' (results st ++ [(task, device, res)]) log)
      | Raise RetryableError =>
          let task' := bump task in
          if attempts task' >? max_retries self
          then inr (mkLoop w' rest pos' (results st) log, Raise RetryableError)
          else inl (mkLoop w' (rest ++ [task']) pos' (results st) log)
      | Raise e => inr (mkLoop w' rest pos' (results st) log, Raise e)
      end
  end.

(** The loop itself. [None] only when the fuel runs out. *)
Fixpoint dispatch_loop (fuel : nat) (st : loop_state)
  : option (loop_state * result (list (Task P * Z * R))) :=
  match fuel with
  | O => None
  | S fuel' =>
      match dispatch_step st with
      | inl st' => dispatch_loop fuel' st'
      | inr out => Some out
      end
  end.

(** Number of loop iterations a task can still cause. *)
Definition task_budget (t : Task P) : nat :=
  S (Z.to_nat (max_retries self + 1 - attempts t)).

Definition queue_budget (q : list (Task P)) : nat :=
  fold_right (fun t acc => (task_budget t + acc)%nat) O q.

(** The loop run from a given state, with fuel that always suffices. *)
Definition dispatch_from (st : loop_state)
  : loop_state * result (list (Task P * Z * R)) :=
  match dispatch_loop (S (queue_budget (queue st))) st with
  | Some out => out
  | None => (st, Raise (OtherError "unreachable"))
  end.

Definition initial_state (w : W) (tasks : list (Task P)) : loop_state :=
  mkLoop w tasks O [] [].

(** [GPUScheduler.dispatch(tasks, worker)], with the final loop state. *)
Definition dispatch_run (w : W) (tasks : list (Task P))
  : loop_state * result (list (Task P * Z * R)) :=
  dispatch_from (initial_state w tasks).

(** What [dispatch] returns or raises. *)
Definition dispatch (w : W) (tasks : list (Task P))
  : result (list (Task P * Z * R)) :=
  snd (dispatch_run w tasks).

(** The devices handed to the worker, one per invocation, in order. *)
Definition device_sequence (w : W) (tasks : list (Task P)) : list Z :=
  map snd (calls (fst (dispatch_run w tasks))).

End Dispatch.

(** The tasks of a result list. *)
Definition result_tasks {P R : Type} (rs : list (Task P * Z * R)) : list (Task P) :=
  map (fun x => fst (fst x)) rs.

(** The device of the [k]-th worker invocation under round-robin. *)
Definition round_robin (devs : list Z) (k : nat) : Z :=
  nth (k mod length devs) devs 0.

Arguments loop_state : clear implicits.
Arguments worker_t : clear implicits.

(* ------------------------------------------------------------------ *)
(** ** consensus.py *)

(** Dictionaries [str -> V] in insertion order. *)
Definition dict (V : Type) : Type := list (string * V).

Fixpoint dict_get {V : Type} (d : dict V) (k : string) : option V :=
  match d with
  | [] => None
  | (k', v) :: r => if String.eqb k' k then Some v else dict_get r k
  end.

(** [d[k] = v]: an existing key keeps its position. *)
Fixpoint dict_set {V : Type} (d : dict V) (k : string) (v : V) : dict V :=
  match d with
  | [] => [(k, v)]
  | (k', v') :: r =>
      if String.eqb k' k then (k', v) :: r else (k', v') :: dict_set r k v
  end.

Definition keys {V : Type} (d : dict V) : list string := map fst d.

(** [d.get(k, default)]. *)
Definition dict_get_default {V : Type} (d : dict V) (k : string) (default : V) : V :=
  match dict_get d k with Some v => v | None => default end.

(** [enumerate(xs, start)]. *)
Fixpoint enumerate {A : Type} (xs : list A) (start : Z) : list (Z * A) :=
  match xs with
  | [] => []
  | x :: r => (start, x) :: enumerate r (start + 1)
  end.

(** [zip(xs, ys)]. *)
Definition zip {A B : Type} (xs : list A) (ys : list B) : list (A * B) :=
  combine xs ys.

(** [sum(ws)] over floats. *)
Definition qsum (ws : list Q) : Q := fold_left Qplus ws 0%Q.

(** [xs.sort(key=key, reverse=True)] / [sorted(xs, key=key, reverse=True)]:
    descending by key, equal keys in their original order. *)
Fixpoint insert_desc {A : Type} (key : A -> Q) (x : A) (l : list A) : list A :=
  match l with
  | [] => [x]
  | y :: r =>
      if Qle_bool (key y) (key x) then x :: y :: r
      else y :: insert_desc key x r
  end.

Definition sort_desc {A : Type} (key : A -> Q) (l : list A) : list A :=
  fold_right (insert_desc key) [] l.

Definition Z2Q (z : Z) : Q := inject_Z z.


Definition weighted_reciprocal_rank_fusion
    (rank_lists : list (list string)) (weights : list Q) (constant : Z)
  : result (dict Q) :=
  if negb (length rank_lists =? length weights)%nat
  then Raise (ValueError "rank_lists and weights must be the same length.")
  else if constant <=? 0
  then Raise (ValueError "constant must be positive.")
  else
    let fused :=
      fold_left
        (fun (fused : dict Q) '(ranking, weight) =>
           if Qle_bool weight 0 then fused
           else
             fold_left
               (fun (fused : dict Q) '(index, candidate) =>
                  dict_set fused candidate
                    (dict_get_default fused candidate 0
                     + weight / Z2Q (constant + index))%Q)
               (enumerate ranking 1) fused)
        (zip rank_lists weights) [] in
    Ok (sort_desc snd fused).

(* ------------------------------------------------------------------ *)
(** ** config.py (the settings the core reads) and pipeline/models.py *)

Inductive PartnerType : Type := protein | ligand.

Definition PartnerType_str (t : PartnerType) : string :=
  match t with protein => "protein" | ligand => "ligand" end.

Record InputRecord : Type := mkInput {
  input_rec_id : string;
  input_rec_type : PartnerType;
  input_rec_value : string
}.

Record PartnerRecord : Type := mkPartner {
  partner_rec_id : string;
  partner_rec_type : PartnerType;
  partner_rec_value : string
}.

Record StageWeights : Type := mkWeights {
  w_dti : Q;
  w_docking : Q;
  w_mmgbsa : Q
}.

Record PipelineSettings : Type := mkPipeline {
  chunk_size : Z;
  pipeline_devices : list Z;
  dti_top_k : Z;
  docking_top_k : Z;
  mmgbsa_top_k : Z;
  consensus_constant : Z;
  stage_weights : StageWeights
}.

Record LibraryProtein : Type := mkProtein { protein_id : string; sequence : string }.
Record LibraryLigand : Type := mkLigand { ligand_id : string; smiles : string }.

Record LibrarySettings : Type := mkLibrary {
  proteins : list LibraryProtein;
  ligands : list LibraryLigand
}.

Record Config : Type := mkConfig {
  pipeline : PipelineSettings;
  library : LibrarySettings
}.

(** One line of a stage's [results.jsonl]. DTI rows carry [input_type];
    the rows of the later stages do not. *)
Record Row : Type := mkRow {
  input_id : string;
  input_type : option string;
  partner_id : string;
  partner_type : string;
  stage : string;
  score : Q;
  rank : Z
}.

(* ------------------------------------------------------------------ *)
(** ** pipeline/data.py *)

(** [load_input_records], over the already parsed and validated CSV rows. *)
Definition load_input_records (csv_rows : list InputRecord) : result (list InputRecord) :=
  match csv_rows with
  | [] => Raise (ValueError "No input records found.")
  | _ => Ok csv_rows
  end.

Definition library_partners (config : Config) (target_type : PartnerType)
  : list PartnerRecord :=
  match target_type with
  | protein =>
      map (fun item => mkPartner (protein_id item) protein (sequence item))
          (proteins (library config))
  | ligand =>
      map (fun item => mkPartner (ligand_id item) ligand (smiles item))
          (ligands (library config))
  end.

Definition opposite_partners (config : Config) (input_type : PartnerType)
  : list PartnerRecord :=
  match input_type with
  | protein => library_partners config ligand
  | ligand => library_partners config protein
  end.

(* ------------------------------------------------------------------ *)
(** ** pipeline/dti.py *)

(** [xs[:k]] for any int [k]. *)
Definition slice_to {A : Type} (xs : list A) (k : Z) : list A :=
  if 0 <=? k then firstn (Z.to_nat k) xs
  else firstn (length xs - Z.to_nat (- k)) xs.

(** [str(i)] for an int. *)
Definition str_of_int (i : Z) : string :=
  DecimalString.NilZero.string_of_int (Z.to_int i).

Definition _rank_partners (record : InputRecord) (partners : list PartnerRecord)
    (top_k : Z) : list Row :=
  let scored :=
    map (fun partner =>
           (partner,
            deterministic_score
              [input_rec_value record; partner_rec_value partner; "dti"]))
        partners in
  let scored := sort_desc snd scored in
  let limited := slice_to scored top_k in
  map (fun '(rank, (partner, score)) =>
         mkRow (input_rec_id record)
               (Some (PartnerType_str (input_rec_type record)))
               (partner_rec_id partner)
               (PartnerType_str (partner_rec_type partner))
               "dti" score rank)
      (enumerate limited 1).

Definition _score_chunk (config : Config) (chunk : list InputRecord) : list Row :=
  let top_k := Z.max 1 (dti_top_k (pipeline config)) in
  flat_map
    (fun record =>
       let partners := opposite_partners config (input_rec_type record) in
       _rank_partners record partners top_k)
    chunk.

(** [run_dti]: [csv_rows] is the content of the inputs file; the returned
    rows are what is written to [dti/results.jsonl]. *)
Definition run_dti (config : Config) (csv_rows : list InputRecord)
    (devs : option (list Z)) : result (list Row) :=
  inputs <- load_input_records csv_rows ;;
  let target_devices :=
    match devs with
    | Some (d :: ds) => d :: ds
    | _ => pipeline_devices (pipeline config)
    end in
  scheduler <- GPUScheduler_init target_devices 0 ;;
  let chunk_size := Z.max 1 (chunk_size (pipeline config)) in
  chunks <- chunked inputs chunk_size ;;
  let tasks :=
    map (fun '(index, chunk) =>
           new_task ("dti_chunk_" ++ str_of_int index)%string chunk)
        (enumerate chunks 0) in
  let worker : worker_t (list InputRecord) (list Row) unit :=
    fun w task device => (w, Ok (_score_chunk config (payload task))) in
  results <- dispatch scheduler worker tt tasks ;;
  Ok (flat_map (fun '(_, device, payload) => payload) results).

(* ------------------------------------------------------------------ *)
(** ** pipeline/docking.py and pipeline/mmgbsa.py *)

(** [grouped[str(row["input_id"])].append(dict(row))] over all rows. *)
Definition group_rows (rows : list Row) : dict (list Row) :=
  fold_left
    (fun (grouped : dict (list Row)) row =>
       dict_set grouped (input_id row)
                (dict_get_default grouped (input_id row) [] ++ [row]))
    rows [].

(** The body shared by [run_docking] and [run_mmgbsa] once the source file
    is read: the two functions differ in the stage tag and the top-k read. *)
Definition rescore_rows (stage_tag : string) (top_k : Z) (source_rows : list Row)
  : list Row :=
  flat_map
    (fun '(_, candidates) =>
       let scored :=
         map (fun item =>
                (item,
                 deterministic_score [input_id item; partner_id item; stage_tag]))
             candidates in
       let scored := sort_desc snd scored in
       map (fun '(rank, (item, score)) =>
              mkRow (input_id item) None (partner_id item) (partner_type item)
                    stage_tag score rank)
           (enumerate (slice_to scored top_k) 1))
    (group_rows source_rows).

(** [run_docking]: [source] is the content of the DTI results file, [None]
    when the file does not exist. *)
Definition run_docking (config : Config) (source : option (list Row))
  : result (list Row) :=
  match source with
  | None => Raise (FileNotFoundError "DTI results missing")
  | Some source_rows =>
      let top_k := Z.max 1 (docking_top_k (pipeline config)) in
      Ok (rescore_rows "docking" top_k source_rows)
  end.

(** [run_mmgbsa]: [source] is the content of the docking results file. *)
Definition run_mmgbsa (config : Config) (source : option (list Row))
  : result (list Row) :=
  match source with
  | None => Raise (FileNotFoundError "Docking results missing")
  | Some source_rows =>
      let top_k := Z.max 1 (mmgbsa_top_k (pipeline config)) in
      Ok (rescore_rows "mmgbsa" top_k source_rows)
  end.

(* ------------------------------------------------------------------ *)
(** ** pipeline/aggregate.py *)

Record StageSnapshot : Type := mkSnapshot {
  scores : dict (dict Q);
  partner_types : dict (dict string)
}.

(** [d.setdefault(k, {})[k2] = v]. *)
Definition setdefault_set {V : Type} (d : dict (dict V)) (k k2 : string) (v : V)
  : dict (dict V) :=
  dict_set d k (dict_set (dict_get_default d k []) k2 v).

Definition _load_stage (rows : list Row) : StageSnapshot :=
  fold_left
    (fun snap row =>
       mkSnapshot
         (setdefault_set (scores snap) (input_id row) (partner_id row) (score row))
         (setdefault_set (partner_types snap) (input_id row) (partner_id row)
                         (partner_type row)))
    rows (mkSnapshot [] []).

(** [sorted(set(...))] over strings: ascending, without repeats. *)
Fixpoint insert_str (x : string) (l : list string) : list string :=
  match l with
  | [] => [x]
  | y :: r =>
      match String.compare x y with
      | Lt => x :: y :: r
      | Eq => y :: r
      | Gt => y :: insert_str x r
      end
  end.

Definition sorted_set (l : list string) : list string :=
  fold_right insert_str [] l.

(** What the inner loop over the stages collects for one input. *)
Record Collected : Type := mkCollected {
  rank_lists : list (list string);
  stage_weights_kept : list Q;
  per_stage_scores : dict (dict Q);
  partner_types_seen : dict string
}.

(** The [for name, weight in zip(stage_names, stage_weights)] loop. *)
Definition collect_stages (stage_data : dict StageSnapshot)
    (stage_names : list string) (stage_weights : list Q) (input_id : string)
  : Collected :=
  fold_left
    (fun acc '(name, weight) =>
       let stage := dict_get_default stage_data name (mkSnapshot [] []) in
       match dict_get (scores stage) input_id with
       | None => acc
       | Some [] => acc
       | Some scores =>
           let ordered := sort_desc snd scores in
           mkCollected
             (rank_lists acc ++ [map fst ordered])
             (stage_weights_kept acc ++ [weight])
             (dict_set (per_stage_scores acc) name ordered)
             (fold_left
                (fun types partner_id =>
                   dict_set types partner_id
                     (dict_get_default
                        (dict_get_default (partner_types stage) input_id [])
                        partner_id "unknown"))
                (keys scores) (partner_types_seen acc))
       end)
    (zip stage_names stage_weights)
    (mkCollected [] [] [] []).

(** [[weight / weight_total for weight in weights] if weight_total else weights]. *)
Definition normalize_weights (weights : list Q) : list Q :=
  let weight_total := qsum weights in
  if negb (Qeq_bool weight_total 0)
  then map (fun weight => (weight / weight_total)%Q) weights
  else weights.

Record ConsensusEntry : Type := mkEntry {
  entry_partner_id : string;
  entry_partner_type : string;
  entry_scores : dict (option Q);
  consensus_score : Q;
  entry_rank : Z
}.

Record GlobalRankingEntry : Type := mkGlobal {
  global_input_id : string;
  global_partner_id : string;
  global_consensus_score : Q;
  global_rank : Z
}.

(** The snapshot written to [final_rankings.json]; the time stamp and the
    configuration digest are left out. *)
Record Snapshot : Type := mkFinal {
  inputs : list (string * list ConsensusEntry);
  global_ranking : list GlobalRankingEntry
}.

Definition stage_names : list string := ["dti"; "docking"; "mmgbsa"].

(** The rank lists and the weights handed to the fusion for one input;
    [None] when no stage has the input ([if not rank_lists: continue]). *)
Definition fusion_arguments (stage_data : dict StageSnapshot)
    (stage_weights : list Q) (input_id : string)
  : option (list (list string) * list Q) :=
  let c := collect_stages stage_data stage_names stage_weights input_id in
  match rank_lists c with
  | [] => None
  | _ => Some (rank_lists c, normalize_weights (stage_weights_kept c))
  end.

(** One iteration of [for input_id in input_ids]: the entries of the input
    and its triples for the global ranking. *)
Definition aggregate_input (stage_data : dict StageSnapshot)
    (stage_weights : list Q) (constant : Z) (input_id : string)
  : result (option (list ConsensusEntry)) :=
  let c := collect_stages stage_data stage_names stage_weights input_id in
  match fusion_arguments stage_data stage_weights input_id with
  | None => Ok None
  | Some (lists, normalized_weights) =>
      fused <- weighted_reciprocal_rank_fusion lists normalized_weights constant ;;
      Ok (Some
            (map (fun '(rank, (partner_id, score)) =>
                    mkEntry partner_id
                      (dict_get_default (partner_types_seen c) partner_id "unknown")
                      (map (fun name =>
                              (name,
                               dict_get
                                 (dict_get_default (per_stage_scores c) name [])
                                 partner_id))
                           stage_names)
                      score rank)
                 (enumerate fused 1)))
  end.

Fixpoint aggregate_inputs (stage_data : dict StageSnapshot)
    (stage_weights : list Q) (constant : Z) (input_ids : list string)
  : result (list (string * list ConsensusEntry)) :=
  match input_ids with
  | [] => Ok []
  | input_id :: rest =>
      partners <- aggregate_input stage_data stage_weights constant input_id ;;
      per_input <- aggregate_inputs stage_data stage_weights constant rest ;;
      Ok (match partners with
          | None => per_input
          | Some ps => (input_id, ps) :: per_input
          end)
  end.

(** [run_aggregate]: the three arguments are the contents of the stage
    result files, [None] for a file that does not exist. *)
Definition run_aggregate (config : Config)
    (dti_file docking_file mmgbsa_file : option (list Row)) : result Snapshot :=
  match dti_file, docking_file, mmgbsa_file with
  | Some dti_rows, Some docking_rows, Some mmgbsa_rows =>
      let stage_data :=
        [("dti", _load_stage dti_rows);
         ("docking", _load_stage docking_rows);
         ("mmgbsa", _load_stage mmgbsa_rows)] in
      let stage_weights :=
        [w_dti (stage_weights (pipeline config));
         w_docking (stage_weights (pipeline config));
         w_mmgbsa (stage_weights (pipeline config))] in
      let constant := consensus_constant (pipeline config) in
      let input_ids :=
        sorted_set (flat_map (fun '(_, data) => keys (scores data)) stage_data) in
      per_input <- aggregate_inputs stage_data stage_weights constant input_ids ;;
      let global_entries :=
        flat_map
          (fun '(input_id, partners) =>
             map (fun e => (input_id, entry_partner_id e, consensus_score e)) partners)
          per_input in
      let global_entries := sort_desc (fun '(_, _, score) => score) global_entries in
      Ok (mkFinal per_input
            (map (fun '(index, (input_id, partner_id, score)) =>
                    mkGlobal input_id partner_id score index)
                 (enumerate global_entries 1)))
  | _, _, _ => Raise (FileNotFoundError "Required stage output missing")
  end.

(* ------------------------------------------------------------------ *)
(** ** Notions used to state the properties *)

(** The generator position follows the number of worker invocations, and
    the invocations so far were served round-robin. *)
Definition round_robin_state {P R W : Type} (self : GPUScheduler)
    (st : loop_state P R W) : Prop :=
  let n := length (devices self) in
  (iter_pos st <= n)%nat
  /\ (iter_pos st mod n = length (calls st) mod n)%nat
  /\ map snd (calls st)
     = map (round_robin (devices self)) (seq 0 (length (calls st))).

(** The worker of the retry test: it counts its invocations and fails on
    the first one only. *)
Definition flaky_worker : worker_t unit string nat :=
  fun calls_so_far task device =>
    (S calls_so_far,
     match calls_so_far with
     | O => Raise RetryableError
     | _ => Ok "ok"
     end).

(** [d[c]] with 0 for a missing key. *)
Definition value_of (d : dict Q) (c : string) : Q := dict_get_default d c 0%Q.

(** The sum of [f rank] over the 1-based positions [rank] at which [c]
    occurs in [ranking], positions counted from [index]. A ranking without
    repeats has at most one such position. *)
Fixpoint rank_terms (f : Z -> Q) (c : string) (ranking : list string) (index : Z) : Q :=
  match ranking with
  | [] => 0%Q
  | x :: rest =>
      ((if String.eqb x c then f index else 0) + rank_terms f c rest (index + 1))%Q
  end.


(** WRRF as the specification writes it: the sum, over the lists with a
    positive weight, of [weight / (constant + rank)]. *)
Definition wrrf_score (constant : Z) (pairs : list (list string * Q)) (c : string) : Q :=
  fold_right
    (fun '(ranking, weight) acc =>
       ((if Qle_bool weight 0 then 0
         else rank_terms (fun rank => weight / Z2Q (constant + rank)) c ranking 1)
        + acc)%Q)
    0%Q pairs.


(** Descending order of a list by a rational key. *)
Definition sorted_desc {A : Type} (key : A -> Q) (l : list A) : Prop :=
  StronglySorted (fun a b => (key b <= key a)%Q) l.

(** The scores a stage holds for an input: [stage.scores.get(input_id)]. *)
Definition stage_scores (stage_data : dict StageSnapshot) (name input_id : string)
  : option (dict Q) :=
  dict_get (scores (dict_get_default stage_data name (mkSnapshot [] []))) input_id.

(** A stage survives for an input when it holds at least one score for it. *)
Definition stage_present (stage_data : dict StageSnapshot) (input_id : string)
    (stage : string * Q) : bool :=
  match stage_scores stage_data (fst stage) input_id with
  | Some (_ :: _) => true
  | _ => false
  end.

(** The surviving stages of an input with their configured weights. *)
Definition surviving (stage_data : dict StageSnapshot) (weights : list Q)
    (input_id : string) : list (string * Q) :=
  filter (stage_present stage_data input_id) (zip stage_names weights).

(** The partners of an input in a stage, best score first. *)
Definition ranked_partners (stage_data : dict StageSnapshot) (input_id name : string)
  : list string :=
  match stage_scores stage_data name input_id with
  | Some scores => map fst (sort_desc snd scores)
  | None => []
  end.


(** A configuration with its three top-k settings replaced. *)
Definition with_top_k (config : Config) (dti docking mmgbsa : Z) : Config :=
  let p := pipeline config in
  mkConfig
    (mkPipeline (chunk_size p) (pipeline_devices p) dti docking mmgbsa
                (consensus_constant p) (stage_weights p))
    (library config).

(** The devices [run_dti] schedules on: [devices or config.pipeline.devices]. *)
Definition target_devices (config : Config) (devs : option (list Z)) : list Z :=
  match devs with
  | Some (d :: ds) => d :: ds
  | _ => pipeline_devices (pipeline config)
  end.

(** The configuration and the inputs of the end-to-end test. *)
Definition example_config : Config :=
  mkConfig
    (mkPipeline 1 [0] 3 2 2 10 (mkWeights (5 # 10) (3 # 10) (2 # 10)))
    (mkLibrary
       [mkProtein "IKZF1" "MPLGKKAKLPEKKAPVTPQLPQLQ";
        mkProtein "IKZF3" "MKRLILPSEADVEQIPKPKKKPL"]
       [mkLigand "LENALIDOMIDE" "O=C1C(N(C2=CC=CC=C2)C3=CC=CC=C13)C(=O)N";
        mkLigand "POMALIDOMIDE" "O=C1NC(C(=O)N)C2=CC=CC=C2N1"]).

Definition example_inputs : list InputRecord :=
  [mkInput "CRBN" protein "MMDKEVQKSSSRTPSYQPGVSQSVE";
   mkInput "LENALIDOMIDE" ligand "O=C1C(N(C2=CC=CC=C2)C3=CC=CC=C13)C(=O)N"].

(* ------------------------------------------------------------------ *)
(** ** Further notions used to state properties *)


(** [ConsensusResult]: scores mapped to candidates. *)
Record ConsensusResult : Type := mkConsensus {
  consensus_scores : dict Q
}.

(** [ConsensusResult.ranked]: [sorted(self.scores,
    key=self.scores.__getitem__, reverse=True)]. Iterating a dict yields its
    keys, so [__getitem__] is only applied to keys of the dict and never
    raises. *)
Definition ranked (self : ConsensusResult) : list string :=
  sort_desc (fun candidate => dict_get_default (consensus_scores self) candidate 0%Q)
            (keys (consensus_scores self)).

(** The unfused accumulation of WRRF, before the final sort. *)
Definition wrrf_accumulate (rank_lists : list (list string)) (weights : list Q)
    (constant : Z) : dict Q :=
  fold_left
    (fun (fused : dict Q) '(ranking, weight) =>
       if Qle_bool weight 0 then fused
       else
         fold_left
           (fun (fused : dict Q) '(index, candidate) =>
              dict_set fused candidate
                (dict_get_default fused candidate 0
                 + weight / Z2Q (constant + index))%Q)
           (enumerate ranking 1) fused)
    (zip rank_lists weights) [].


(** The rows of a result file that belong to one input, in file order. *)
Definition rows_of_input (input : string) (rows : list Row) : list Row :=
  filter (fun row => String.eqb (input_id row) input) rows.

(** The ranks 1, 2, ..., n. *)
Definition rank_range (n : nat) : list Z := map Z.of_nat (seq 1 n).

(** How many items [xs[:k]] keeps of [n]. *)
Definition slice_count (n : nat) (k : Z) : nat :=
  if 0 <=? k then Nat.min (Z.to_nat k) n else (n - Z.to_nat (- k))%nat.

(** The rows that the docking and MM/GBSA stages emit for one group of
    candidates: the body of their loop over [grouped.items()]. *)
Definition rescore_group (stage_tag : string) (top_k : Z) (candidates : list Row)
  : list Row :=
  map (fun '(rank, (item, score)) =>
         mkRow (input_id item) None (partner_id item) (partner_type item)
               stage_tag score rank)
      (enumerate
         (slice_to
            (sort_desc snd
               (map (fun item =>
                       (item,
                        deterministic_score
                          [input_id item; partner_id item; stage_tag]))
                    candidates))
            top_k) 1).

(** [d[i][p]] in a dictionary of dictionaries, [None] when a key is missing. *)
Definition lookup2 {V : Type} (d : dict (dict V)) (i p : string) : option V :=
  match dict_get d i with
  | Some inner => dict_get inner p
  | None => None
  end.

(** The last row of a file for the pair (input [i], partner [p]). *)
Fixpoint last_row (i p : string) (rows : list Row) : option Row :=
  match rows with
  | [] => None
  | row :: rest =>
      match last_row i p rest with
      | Some later => Some later
      | None =>
          if String.eqb (input_id row) i && String.eqb (partner_id row) p
          then Some row else None
      end
  end.

(** Strictly ascending order of strings, as [sorted] orders them. *)
Definition ascending (l : list string) : Prop :=
  StronglySorted (fun a b => String.compare a b = Lt) l.

(** The three snapshots [run_aggregate] loads, keyed by stage name. *)
Definition stage_data_of (dti_rows docking_rows mmgbsa_rows : list Row)
  : dict StageSnapshot :=
  [("dti", _load_stage dti_rows);
   ("docking", _load_stage docking_rows);
   ("mmgbsa", _load_stage mmgbsa_rows)].

(** [stage_weights] as [run_aggregate] lists them. *)
Definition configured_weights (config : Config) : list Q :=
  [w_dti (stage_weights (pipeline config));
   w_docking (stage_weights (pipeline config));
   w_mmgbsa (stage_weights (pipeline config))].

(** The input ids [run_aggregate] iterates over. *)
Definition aggregate_input_ids (stage_data : dict StageSnapshot) : list string :=
  sorted_set (flat_map (fun '(_, data) => keys (scores data)) stage_data).

(** The triples [run_aggregate] appends to [global_entries]. *)
Definition global_entries_of (per_input : list (string * list ConsensusEntry))
  : list (string * string * Q) :=
  flat_map
    (fun '(input_id, partners) =>
       map (fun e => (input_id, entry_partner_id e, consensus_score e)) partners)
    per_input.


(** Small stage files: input [P1] went through all stages, input [P2]
    reached the docking stage only. *)
Definition sample_dti_rows : list Row :=
  [mkRow "P1" (Some "protein") "L1" "ligand" "dti" (3 # 4) 1;
   mkRow "P1" (Some "protein") "L2" "ligand" "dti" (1 # 4) 2].

Definition sample_docking_rows : list Row :=
  [mkRow "P1" None "L2" "ligand" "docking" (1 # 2) 1;
   mkRow "P1" None "L1" "ligand" "docking" (1 # 3) 2;
   mkRow "P2" None "L1" "ligand" "docking" (1 # 4) 1].

Definition sample_mmgbsa_rows : list Row :=
  [mkRow "P1" None "L2" "ligand" "mmgbsa" (2 # 3) 1].

(** The snapshot [run_aggregate] returns on the sample files. *)
Definition sample_final : Snapshot :=
  Eval vm_compute in
    match run_aggregate example_config (Some sample_dti_rows)
                        (Some sample_docking_rows) (Some sample_mmgbsa_rows) with
    | Ok final => final
    | Raise _ => mkFinal [] []
    end.

(* ------------------------------------------------------------------ *)
(** ** config.py: weights and nested configuration values *)

(** [StageWeights.normalized]. *)
Definition normalized (self : StageWeights) : result StageWeights :=
  let total := (w_dti self + w_docking self + w_mmgbsa self)%Q in
  if Qle_bool total 0
  then Raise (ValueError "Stage weights must sum to a positive value.")
  else Ok (mkWeights (w_dti self / total) (w_docking self / total)
                     (w_mmgbsa self / total)).

(** [ConfigPrimitive] and [ConfigValue]: the values of a parsed
    configuration. *)
Inductive ConfigPrimitive : Type :=
| PStr (s : string)
| PInt (z : Z)
| PFloat (q : Q)
| PBool (b : bool)
| PNone.

#[warnings="-register-all"] Inductive ConfigValue : Type :=
| Primitive (p : ConfigPrimitive)
| Items (items : list ConfigValue)
| Mapping (entries : list (string * ConfigValue)).

(** [_write_nested(config, path, value)]: the mapping after the write. An
    empty path raises [IndexError] at [path[-1]]. A key on the way that is
    missing or not a mapping is replaced by a fresh mapping. *)
Fixpoint _write_nested (config : dict ConfigValue) (path : list string)
    (value : ConfigValue) : result (dict ConfigValue) :=
  match path with
  | [] => Raise (OtherError "IndexError: list index out of range")
  | key :: rest =>
      match rest with
      | [] => Ok (dict_set config key value)
      | _ :: _ =>
          let cursor :=
            match dict_get config key with
            | Some (Mapping entries) => entries
            | _ => []
            end in
          cursor' <- _write_nested cursor rest value ;;
          Ok (dict_set config key (Mapping cursor'))
      end
  end.

(** A parsed configuration with a scalar where an override expects a
    mapping. *)
Definition sample_mapping : dict ConfigValue :=
  [("pipeline", Primitive (PStr "default"));
   ("library", Mapping [("proteins", Items [])])].

(** Reading along a path of keys through nested mappings. *)
Fixpoint read_nested (config : dict ConfigValue) (path : list string)
  : option ConfigValue :=
  match path with
  | [] => None
  | key :: rest =>
      match rest with
      | [] => dict_get config key
      | _ :: _ =>
          match dict_get config key with
          | Some (Mapping entries) => read_nested entries rest
          | _ => None
          end
      end
  end.

(** Two paths that part at some key: neither is a prefix of the other. *)
Fixpoint diverge (p q : list string) : bool :=
  match p, q with
  | a :: p', b :: q' => if String.eqb a b then diverge p' q' else true
  | _, _ => false
  end.

(* ------------------------------------------------------------------ *)
(** ** pipeline/data.py: the rows of the inputs file *)

Definition parse_type (entry_type : string) : option PartnerType :=
  if String.eqb entry_type "protein" then Some protein
  else if String.eqb entry_type "ligand" then Some ligand
  else None.

(** [not x] for the result of [row.get(...)]: missing or empty. *)
Definition falsy (x : option string) : bool :=
  match x with
  | None => true
  | Some s => String.eqb s ""
  end.

(** The loop of [load_input_records] over the rows [load_csv] returns,
    each a mapping from column name to cell. *)
Fixpoint load_rows (csv_rows : list (dict string)) : result (list InputRecord) :=
  match csv_rows with
  | [] => Ok []
  | row :: rest =>
      let identifier := dict_get row "id" in
      let entry_type := dict_get row "type" in
      let value := dict_get row "value" in
      if falsy identifier || falsy entry_type || falsy value
      then Raise (ValueError "Input row missing required fields (id, type, value).")
      else
        match parse_type (dict_get_default row "type" "") with
        | None =>
            Raise (ValueError ("Invalid input type " ++ dict_get_default row "type" ""
                               ++ "; expected 'protein' or 'ligand'."))
        | Some t =>
            records <- load_rows rest ;;
            Ok (mkInput (dict_get_default row "id" "") t
                        (dict_get_default row "value" "") :: records)
        end
  end.

(** [load_input_records], from the untyped rows of the file. *)
Definition load_input_records_csv (csv_rows : list (dict string))
  : result (list InputRecord) :=
  records <- load_rows csv_rows ;;
  match records with
  | [] => Raise (ValueError "No input records found.")
  | _ => Ok records
  end.

(** A row [load_input_records] accepts. *)
Definition valid_input_row (row : dict string) : bool :=
  negb (falsy (dict_get row "id") || falsy (dict_get row "type")
        || falsy (dict_get row "value"))
  && match parse_type (dict_get_default row "type" "") with
     | Some _ => true
     | None => false
     end.

(** One round of the loop of [collect_stages], for one stage. *)
Definition collect_step (stage_data : dict StageSnapshot) (input_id : string)
    (acc : Collected) (named : string * Q) : Collected :=
  let '(name, weight) := named in
  let stage := dict_get_default stage_data name (mkSnapshot [] []) in
  match dict_get (scores stage) input_id with
  | None => acc
  | Some [] => acc
  | Some scores =>
      let ordered := sort_desc snd scores in
      mkCollected
        (rank_lists acc ++ [map fst ordered])
        (stage_weights_kept acc ++ [weight])
        (dict_set (per_stage_scores acc) name ordered)
        (fold_left
           (fun types partner_id =>
              dict_set types partner_id
                (dict_get_default
                   (dict_get_default (partner_types stage) input_id [])
                   partner_id "unknown"))
           (keys scores) (partner_types_seen acc))
  end.

(** The partner type of the last row of a pair, in the latest of the given
    stage files that has the pair. *)
Fixpoint latest_partner_type (i p : string) (files_latest_first : list (list Row))
  : string :=
  match files_latest_first with
  | [] => "unknown"
  | rows :: earlier =>
      match last_row i p rows with
      | Some row => partner_type row
      | None => latest_partner_type i p earlier
      end
  end.

(** The entries of input P2 in [sample_final], and the first of them. P2
    occurs in the docking file only. *)
Definition sample_p2_entries : list ConsensusEntry :=
  Eval vm_compute in
    match inputs sample_final with
    | _ :: (_, entries) :: _ => entries
    | _ => []
    end.

Definition sample_entry : ConsensusEntry :=
  Eval vm_compute in hd (mkEntry "" "" [] 0 0) sample_p2_entries.

(** The docking and MM-GBSA files the later stages derive from the sample
    DTI file. *)
Definition sample_pipeline_docking : list Row :=
  rescore_rows "docking" (Z.max 1 (docking_top_k (pipeline example_config)))
               sample_dti_rows.

Definition sample_pipeline_mmgbsa : list Row :=
  rescore_rows "mmgbsa" (Z.max 1 (mmgbsa_top_k (pipeline example_config)))
               sample_pipeline_docking.


(* ================================================================== *)
(** * Properties *)

(* ------------------------------------------------------------------ *)
(** ** [chunked] *)

Section Chunked.
Context {T : Type}.




End Chunked.



(* ------------------------------------------------------------------ *)
(** ** [GPUScheduler.dispatch] *)

Section DispatchFacts.
Context {P R W : Type}.
Variable self : GPUScheduler.
Variable worker : worker_t P R W.


Lemma queue_budget_app (q1 q2 : list (Task P)) :
  queue_budget self (q1 ++ q2) = (queue_budget self q1 + queue_budget self q2)%nat.
Proof.
  induction q1 as [|t q1 IH]; cbn [queue_budget fold_right app];
    [reflexivity|].
  fold (queue_budget self (q1 ++ q2)). fold (queue_budget self q1). lia.
Qed.

Lemma queue_budget_cons (t : Task P) (q : list (Task P)) :
  queue_budget self (t :: q) = (task_budget self t + queue_budget self q)%nat.
Proof. reflexivity. Qed.

(** Every iteration that continues uses up some of the budget. *)
Lemma step_budget (st st' : loop_state P R W) :
  dispatch_step self worker st = inl st' -> (queue_budget self (queue st') < queue_budget self (queue st))%nat.
Proof.
  unfold dispatch_step.
  destruct (queue st) as [|task rest]; [discriminate|].
  destruct (device_next _ _) as [device pos'].
  destruct (worker _ _ _) as [w' [res|e]].
  - intros [= <-]. cbn [queue]. rewrite queue_budget_cons.
    unfold task_budget. lia.
  - destruct e; try discriminate.
    destruct (attempts (bump task) >? max_retries self) eqn:E; [discriminate|].
    intros [= <-]. cbn [queue].
    rewrite queue_budget_app, !queue_budget_cons.
    change (queue_budget self []) with O. unfold task_budget.
    cbn [bump attempts] in *.
    rewrite Z.gtb_ltb in E. apply Z.ltb_ge in E.
    lia.
Qed.

Lemma loop_enough_fuel :
  forall fuel (st : loop_state P R W),
    (queue_budget self (queue st) < fuel)%nat -> exists out, dispatch_loop self worker fuel st = Some out.
Proof.
  induction fuel as [|fuel IH]; intros st Hb; [lia|].
  cbn [dispatch_loop].
  destruct (dispatch_step self worker st) as [st'|out] eqn:E; [| now exists out].
  apply IH. apply step_budget in E. lia.
Qed.

Lemma loop_more_fuel :
  forall fuel fuel' (st : loop_state P R W) out,
    dispatch_loop self worker fuel st = Some out -> (fuel <= fuel')%nat -> dispatch_loop self worker fuel' st = Some out.
Proof.
  induction fuel as [|fuel IH]; intros fuel' st out H Hle; [discriminate|].
  destruct fuel' as [|fuel']; [lia|].
  cbn [dispatch_loop] in *.
  destruct (dispatch_step self worker st); [| exact H].
  apply (IH fuel'); [exact H | lia].
Qed.

Lemma dispatch_from_loop (st : loop_state P R W) :
  dispatch_loop self worker (S (queue_budget self (queue st))) st = Some (dispatch_from self worker st).
Proof.
  unfold dispatch_from.
  destruct (loop_enough_fuel (S (queue_budget self (queue st))) st) as [out ->];
    [lia | reflexivity].
Qed.

(** The run from a loop_state P R W is its step followed by the run from the next. *)
Lemma dispatch_from_step (st : loop_state P R W) :
  dispatch_from self worker st =
  match dispatch_step self worker st with
  | inl st' => dispatch_from self worker st'
  | inr out => out
  end.
Proof.
  pose proof (dispatch_from_loop st) as H.
  cbn [dispatch_loop] in H.
  destruct (dispatch_step self worker st) as [st'|out] eqn:E.
  - pose proof (dispatch_from_loop st') as H'.
    apply step_budget in E.
    apply (loop_more_fuel _ (queue_budget self (queue st))) in H'; [| lia].
    congruence.
  - congruence.
Qed.

(** Loop invariants: when every continuing iteration keeps [I] and every
    halting iteration from a loop_state P R W in [I] establishes [Q], the run from a
    loop_state P R W in [I] satisfies [Q]. *)
Lemma dispatch_from_invariant (I : loop_state P R W -> Prop)
    (Q : loop_state P R W * result (list (Task P * Z * R)) -> Prop) :
  (forall st st', I st -> dispatch_step self worker st = inl st' -> I st') ->
  (forall st out, I st -> dispatch_step self worker st = inr out -> Q out) ->
  forall st, I st -> Q (dispatch_from self worker st).
Proof.
  intros Hcont Hhalt st.
  remember (queue_budget self (queue st)) as n eqn:Hn.
  revert st Hn.
  induction n as [n IH] using lt_wf_ind. intros st -> HI.
  rewrite dispatch_from_step.
  destruct (dispatch_step self worker st) as [st'|out] eqn:E.
  - eapply IH; [ eapply step_budget; exact E | reflexivity | eauto ].
  - eauto.
Qed.

(** The shape of an iteration on a non-empty queue. *)
Lemma step_pop (st : loop_state P R W) task rest :
  queue st = task :: rest ->
  let p := if (iter_pos st <? length (devices self))%nat then iter_pos st else O in
  let device := nth p (devices self) 0 in
  let log := calls st ++ [(task, device)] in
  let w' := fst (worker (wstate st) task device) in
  dispatch_step self worker st =
  match snd (worker (wstate st) task device) with
  | Ok res =>
      inl (mkLoop w' rest (S p) (results st ++ [(task, device, res)]) log)
  | Raise RetryableError =>
      if attempts task + 1 >? max_retries self
      then inr (mkLoop w' rest (S p) (results st) log, Raise RetryableError)
      else inl (mkLoop w' (rest ++ [bump task]) (S p) (results st) log)
  | Raise e => inr (mkLoop w' rest (S p) (results st) log, Raise e)
  end.
Proof.
  intros Hq. unfold dispatch_step, device_next. rewrite Hq. cbv zeta.
  destruct (worker _ _ _) as [w1 [res|e]]; cbn [fst snd]; reflexivity.
Qed.

Lemma step_empty (st : loop_state P R W) :
  queue st = [] -> dispatch_step self worker st = inr (st, Ok (results st)).
Proof. intros Hq. unfold dispatch_step. now rewrite Hq. Qed.


Lemma result_tasks_snoc (rs : list (Task P * Z * R)) t d r (q : list (Task P)) :
  result_tasks (rs ++ [(t, d, r)]) ++ q = result_tasks rs ++ t :: q.
Proof.
  unfold result_tasks. rewrite map_app, <- app_assoc. reflexivity.
Qed.

Section Submitted.
Variable tasks : list (Task P).


End Submitted.

Lemma round_robin_pop (st : loop_state P R W) task (w' : W) q
    (rs : list (Task P * Z * R)) :
  devices self <> [] ->
  round_robin_state self st ->
  let p := if (iter_pos st <? length (devices self))%nat then iter_pos st else O in
  round_robin_state self
    (mkLoop w' q (S p) rs (calls st ++ [(task, nth p (devices self) 0)])).
Proof.
  intros Hne (Hle & Hmod & Hseq). cbv zeta.
  assert (Hn : (length (devices self) <> 0)%nat)
    by (destruct (devices self); [congruence | discriminate]).
  set (n := length (devices self)) in *.
  assert (Hp : (if (iter_pos st <? n)%nat then iter_pos st else O)
               = (length (calls st) mod n)%nat).
  { destruct (iter_pos st <? n)%nat eqn:E.
    - apply Nat.ltb_lt in E. rewrite <- Hmod. symmetry. now apply Nat.mod_small.
    - apply Nat.ltb_ge in E. assert (iter_pos st = n) as Heq by lia.
      rewrite <- Hmod, Heq. symmetry. now apply Nat.Div0.mod_same. }
  rewrite Hp. unfold round_robin_state. cbn [iter_pos calls]. fold n.
  assert (Hlt : (length (calls st) mod n < n)%nat) by now apply Nat.mod_upper_bound.
  split; [lia|]. split.
  - rewrite length_app. cbn [length].
    replace (S (length (calls st) mod n)) with (length (calls st) mod n + 1)%nat by lia.
    now rewrite Nat.Div0.add_mod_idemp_l.
  - rewrite length_app. cbn [length]. rewrite Nat.add_1_r, seq_S, !map_app.
    cbn [map snd Nat.add]. rewrite Hseq. reflexivity.
Qed.

Lemma dispatch_from_round_robin (st : loop_state P R W) :
  devices self <> [] ->
  round_robin_state self st ->
  round_robin_state self (fst (dispatch_from self worker st)).
Proof.
  intros Hne HI.
  apply (dispatch_from_invariant (round_robin_state self)
           (fun out => round_robin_state self (fst out)));
    [ | | exact HI ]; clear st HI.
  - intros st st' HI Hstep.
    destruct (queue st) as [|task rest] eqn:Hq;
      [rewrite step_empty in Hstep by exact Hq; discriminate|].
    rewrite (step_pop st task rest Hq) in Hstep. cbv zeta in Hstep.
    destruct (snd (worker _ _ _)) as [res|e].
    + injection Hstep as <-. now apply round_robin_pop.
    + destruct e; try discriminate.
      destruct (attempts task + 1 >? max_retries self); [discriminate|].
      injection Hstep as <-. now apply round_robin_pop.
  - intros st out HI Hstep.
    destruct (queue st) as [|task rest] eqn:Hq.
    + rewrite step_empty in Hstep by exact Hq. now injection Hstep as <-.
    + rewrite (step_pop st task rest Hq) in Hstep. cbv zeta in Hstep.
      destruct (snd (worker _ _ _)) as [res|e]; [discriminate|].
      destruct e;
        try (injection Hstep as <-; cbn [fst]; now apply round_robin_pop).
      destruct (attempts task + 1 >? max_retries self); [|discriminate].
      injection Hstep as <-. cbn [fst]. now apply round_robin_pop.
Qed.


End DispatchFacts.



(** One unrolled iteration on a literal queue with a worker known to
    succeed. *)
Ltac pop_ok Hok :=
  rewrite dispatch_from_step;
  erewrite step_pop by reflexivity;
  cbv zeta; cbn [wstate iter_pos results calls devices length Nat.ltb Nat.leb nth];
  match goal with
  | |- context [snd (_ ?w ?t ?d)] =>
      let r := fresh "r" in
      let E := fresh "E" in
      destruct (Hok w t d) as [r E]; rewrite E
  end.

(** C8. [dispatch] hands out devices round-robin over the popped tasks:
    the [k]-th worker invocation (counting from 0, every pop of the queue
    being one invocation, retried tasks included) gets the device at index
    [k mod len(devices)]. With devices [[0,1]], four tasks and a worker that
    never fails, the devices are [[0,1,0,1]]. *)
Theorem dispatch_round_robin {P R W : Type}
    (self : GPUScheduler) (worker : worker_t P R W) (w : W) :
  (forall tasks,
      devices self <> [] ->
      device_sequence self worker w tasks
      = map (round_robin (devices self))
            (seq 0 (length (device_sequence self worker w tasks))))
  /\ (forall t1 t2 t3 t4,
        devices self = [0; 1] ->
        (forall w t d, exists r, snd (worker w t d) = Ok r) ->
        device_sequence self worker w [t1; t2; t3; t4] = [0; 1; 0; 1]
        /\ exists rs,
            dispatch self worker w [t1; t2; t3; t4] = Ok rs
            /\ map (fun x => snd (fst x)) rs = [0; 1; 0; 1]
            /\ result_tasks rs = [t1; t2; t3; t4]).
Proof.
  split.
  - intros tasks Hne. unfold device_sequence, dispatch_run.
    pose proof (dispatch_from_round_robin self worker (initial_state w tasks) Hne)
      as (_ & _ & Hseq).
    + unfold round_robin_state, initial_state. cbn [iter_pos calls length map seq].
      split; [lia|]. split; reflexivity.
    + now rewrite length_map.
  - intros t1 t2 t3 t4 Hdev Hok.
    destruct self as [devs retries]. cbn [devices] in Hdev. subst devs.
    unfold device_sequence, dispatch, dispatch_run, initial_state.
    do 4 pop_ok Hok.
    rewrite dispatch_from_step, step_empty by reflexivity.
    cbn. split; [reflexivity|].
    eexists. split; [reflexivity|]. split; reflexivity.
Qed.

Lemma dispatch_round_robin_witness :
  device_sequence (mkScheduler [0; 1] 1) flaky_worker O [new_task "flaky" tt]
  = map (round_robin [0; 1])
        (seq 0 (length (device_sequence (mkScheduler [0; 1] 1) flaky_worker O
                                        [new_task "flaky" tt])))
  /\ device_sequence (mkScheduler [0; 1] 0)
       (fun (w : unit) (t : Task Z) (d : Z) => (w, Ok (payload t * 2)))
       tt [new_task "task_0" 0; new_task "task_1" 1;
           new_task "task_2" 2; new_task "task_3" 3]
     = [0; 1; 0; 1].
Proof.
  split.
  - apply (proj1 (dispatch_round_robin (mkScheduler [0; 1] 1) flaky_worker O)).
    discriminate.
  - apply (proj2 (dispatch_round_robin (mkScheduler [0; 1] 0)
             (fun (w : unit) (t : Task Z) (d : Z) => (w, Ok (payload t * 2))) tt)).
    + reflexivity.
    + intros w t d. eexists. reflexivity.
Defined.



(* ------------------------------------------------------------------ *)
(** ** Dictionaries *)

Section DictFacts.
Context {V : Type}.

Lemma dict_get_set (d : dict V) k v k' :
  dict_get (dict_set d k v) k' =
  if String.eqb k k' then Some v else dict_get d k'.
Proof.
  induction d as [|[k0 v0] r IH]; cbn [dict_set dict_get]; [reflexivity|].
  destruct (String.eqb k0 k) eqn:E.
  - apply String.eqb_eq in E. subst k0. cbn [dict_get].
    destruct (String.eqb k k'); reflexivity.
  - cbn [dict_get]. destruct (String.eqb k0 k') eqn:E2; [| exact IH].
    apply String.eqb_eq in E2. subst k'. now rewrite String.eqb_sym, E.
Qed.

Lemma keys_dict_set (d : dict V) k v c :
  In c (keys (dict_set d k v)) <-> In c (keys d) \/ c = k.
Proof.
  unfold keys.
  induction d as [|[k0 v0] r IH]; cbn [dict_set map fst In].
  - intuition congruence.
  - destruct (String.eqb k0 k) eqn:E; cbn [map fst In].
    + apply String.eqb_eq in E. subst k0. intuition congruence.
    + rewrite IH. tauto.
Qed.

Lemma NoDup_keys_dict_set (d : dict V) k v :
  NoDup (keys d) -> NoDup (keys (dict_set d k v)).
Proof.
  unfold keys.
  induction d as [|[k0 v0] r IH]; cbn [dict_set map fst]; intros Hnd.
  - constructor; [intros [] | constructor].
  - inversion Hnd as [|? ? Hnotin Hnd']; subst.
    destruct (String.eqb k0 k) eqn:E; cbn [map fst].
    + now constructor.
    + constructor; [| now apply IH].
      intros Hin. apply (keys_dict_set r k v k0) in Hin.
      destruct Hin as [Hin | ->]; [contradiction|].
      now rewrite String.eqb_refl in E.
Qed.

Lemma dict_get_None (d : dict V) c :
  dict_get d c = None <-> ~ In c (keys d).
Proof.
  unfold keys.
  induction d as [|[k0 v0] r IH]; cbn [dict_get map fst In]; [tauto|].
  destruct (String.eqb k0 c) eqn:E.
  - apply String.eqb_eq in E. subst. split; [discriminate | tauto].
  - apply String.eqb_neq in E. rewrite IH. tauto.
Qed.

Lemma dict_get_Some_In (d : dict V) c v :
  dict_get d c = Some v -> In (c, v) d.
Proof.
  induction d as [|[k0 v0] r IH]; cbn [dict_get In]; [discriminate|].
  destruct (String.eqb k0 c) eqn:E.
  - apply String.eqb_eq in E. subst. intros [= ->]. now left.
  - intros H. right. now apply IH.
Qed.

Lemma In_dict_get (d : dict V) c v :
  NoDup (keys d) -> In (c, v) d -> dict_get d c = Some v.
Proof.
  unfold keys.
  induction d as [|[k0 v0] r IH]; cbn [dict_get map fst In]; [tauto|].
  intros Hnd [Heq | Hin].
  - injection Heq as -> ->. now rewrite String.eqb_refl.
  - inversion Hnd as [|? ? Hnotin Hnd']; subst.
    destruct (String.eqb k0 c) eqn:E; [| now apply IH].
    apply String.eqb_eq in E. subst. exfalso. apply Hnotin.
    change c with (fst (c, v)). now apply in_map.
Qed.

(** Reordering a dictionary does not change what its keys map to. *)
Lemma dict_get_permutation (d d' : dict V) c :
  NoDup (keys d) -> Permutation d d' -> dict_get d c = dict_get d' c.
Proof.
  intros Hnd Hperm.
  assert (Hnd' : NoDup (keys d'))
    by (eapply Permutation_NoDup; [apply Permutation_map; exact Hperm | exact Hnd]).
  destruct (dict_get d c) as [v|] eqn:E.
  - symmetry. apply In_dict_get; [exact Hnd'|].
    eapply Permutation_in; [exact Hperm | now apply dict_get_Some_In].
  - destruct (dict_get d' c) as [v'|] eqn:E'; [| reflexivity].
    apply dict_get_Some_In in E'.
    apply Permutation_sym in Hperm.
    apply (Permutation_in _ Hperm) in E'.
    apply (In_dict_get d c v' Hnd) in E'. congruence.
Qed.


End DictFacts.

(* ------------------------------------------------------------------ *)
(** ** Stable descending sort *)

Section SortFacts.
Context {A : Type}.
Variable key : A -> Q.

Lemma insert_desc_perm (x : A) (l : list A) :
  Permutation (insert_desc key x l) (x :: l).
Proof.
  induction l as [|y r IH]; cbn [insert_desc]; [reflexivity|].
  destruct (Qle_bool (key y) (key x)); [reflexivity|].
  rewrite IH. apply perm_swap.
Qed.

Lemma sort_desc_perm (l : list A) : Permutation (sort_desc key l) l.
Proof.
  induction l as [|x r IH]; cbn [sort_desc fold_right]; [reflexivity|].
  fold (sort_desc key r). rewrite insert_desc_perm. now constructor.
Qed.

Lemma insert_desc_sorted (x : A) (l : list A) :
  sorted_desc key l -> sorted_desc key (insert_desc key x l).
Proof.
  unfold sorted_desc.
  induction l as [|y r IH]; cbn [insert_desc]; intros Hs.
  - constructor; constructor.
  - inversion Hs as [|? ? Hr Hall]; subst.
    destruct (Qle_bool (key y) (key x)) eqn:E.
    + apply Qle_bool_iff in E.
      constructor; [exact Hs|].
      constructor; [exact E|].
      eapply Forall_impl; [| exact Hall].
      cbv beta. intros z Hz. now apply (Qle_trans _ (key y)).
    + assert (Hlt : (key x < key y)%Q).
      { apply Qnot_le_lt. intros H. apply Qle_bool_iff in H. congruence. }
      constructor; [now apply IH|].
      eapply Permutation_Forall;
        [apply Permutation_sym, insert_desc_perm|].
      constructor; [now apply Qlt_le_weak | exact Hall].
Qed.

Lemma sort_desc_sorted (l : list A) : sorted_desc key (sort_desc key l).
Proof.
  induction l as [|x r IH]; cbn [sort_desc fold_right]; [constructor|].
  now apply insert_desc_sorted.
Qed.
End SortFacts.

(* ------------------------------------------------------------------ *)
(** ** Rank fusion *)

Lemma value_of_set (d : dict Q) k v c :
  value_of (dict_set d k v) c = if String.eqb k c then v else value_of d c.
Proof.
  unfold value_of, dict_get_default. rewrite dict_get_set.
  now destruct (String.eqb k c).
Qed.

(** The loop [for index, candidate in enumerate(ranking, start): ...] that
    both fusion functions run, for any per-position term [f]. *)
Lemma rank_loop_spec (f : Z -> Q) :
  forall (ranking : list string) (start : Z) (d : dict Q),
    let d' :=
      fold_left
        (fun (acc : dict Q) '(index, candidate) =>
           dict_set acc candidate (dict_get_default acc candidate 0 + f index)%Q)
        (enumerate ranking start) d in
    (forall c, value_of d' c == value_of d c + rank_terms f c ranking start)%Q
    /\ (forall c, In c (keys d') <-> In c (keys d) \/ In c ranking)
    /\ (NoDup (keys d) -> NoDup (keys d')).
Proof.
  induction ranking as [|x rest IH]; intros start d; cbn [enumerate fold_left].
  - cbv zeta. cbn [rank_terms In].
    split; [intros c; lra | split; [tauto | tauto]].
  - specialize (IH (start + 1)
                   (dict_set d x (dict_get_default d x 0 + f start)%Q)).
    cbv zeta in *. destruct IH as (Hval & Hkeys & Hnd).
    repeat split.
    + intros c. rewrite Hval, value_of_set. cbn [rank_terms].
      destruct (String.eqb x c) eqn:E.
      * apply String.eqb_eq in E. subst c. fold (value_of d x). lra.
      * lra.
    + rewrite Hkeys, keys_dict_set. cbn [In]. intuition congruence.
    + rewrite Hkeys, keys_dict_set. cbn [In]. intuition congruence.
    + intros H. now apply Hnd, NoDup_keys_dict_set.
Qed.

Lemma wrrf_loop_spec (constant : Z) :
  forall (pairs : list (list string * Q)) (d : dict Q),
    let d' :=
      fold_left
        (fun (fused : dict Q) '(ranking, weight) =>
           if Qle_bool weight 0 then fused
           else
             fold_left
               (fun (fused : dict Q) '(index, candidate) =>
                  dict_set fused candidate
                    (dict_get_default fused candidate 0
                     + weight / Z2Q (constant + index))%Q)
               (enumerate ranking 1) fused)
        pairs d in
    (forall c, value_of d' c == value_of d c + wrrf_score constant pairs c)%Q
    /\ (forall c, In c (keys d') <->
                  In c (keys d)
                  \/ exists ranking weight,
                       In (ranking, weight) pairs /\ (0 < weight)%Q /\ In c ranking)
    /\ (NoDup (keys d) -> NoDup (keys d')).
Proof.
  induction pairs as [|[ranking weight] rest IH]; intros d; cbn [fold_left].
  - cbv zeta. cbn [wrrf_score fold_right In].
    split; [intros c; lra | split; [| tauto]].
    intros c. split; [tauto | intros [H|(? & ? & [] & _)]; exact H].
  - destruct (Qle_bool weight 0) eqn:E.
    + specialize (IH d). cbv zeta in *. destruct IH as (Hval & Hkeys & Hnd).
      apply Qle_bool_iff in E.
      repeat split; [ | | | exact Hnd].
      * intros c. rewrite Hval. cbn [wrrf_score fold_right].
        fold (wrrf_score constant rest c).
        apply Qle_bool_iff in E. rewrite E. lra.
      * rewrite Hkeys. intros [H | (l & w & Hin & Hw & Hc)]; [now left|].
        right. exists l, w. cbn [In]. tauto.
      * rewrite Hkeys. intros [H | (l & w & [Heq | Hin] & Hw & Hc)].
        -- now left.
        -- injection Heq as <- <-. lra.
        -- right. now exists l, w.
    + pose proof (rank_loop_spec (fun rank => weight / Z2Q (constant + rank))%Q
                                 ranking 1 d) as Hin.
      cbv zeta in Hin. destruct Hin as (Hval1 & Hkeys1 & Hnd1).
      match goal with
      | |- context [fold_left _ rest ?d1] => specialize (IH d1)
      end.
      cbv zeta in *. destruct IH as (Hval & Hkeys & Hnd).
      assert (Hpos : (0 < weight)%Q).
      { apply Qnot_le_lt. intros H. apply Qle_bool_iff in H. congruence. }
      repeat split.
      * intros c. rewrite Hval, Hval1. cbn [wrrf_score fold_right].
        fold (wrrf_score constant rest c). rewrite E. lra.
      * rewrite Hkeys, Hkeys1.
        intros [[H | H] | (l & w & Hin & Hw & Hc)].
        -- now left.
        -- right. exists ranking, weight. cbn [In]. tauto.
        -- right. exists l, w. cbn [In]. tauto.
      * rewrite Hkeys, Hkeys1.
        intros [H | (l & w & [Heq | Hin] & Hw & Hc)].
        -- now left; left.
        -- injection Heq as <- <-. now left; right.
        -- right. now exists l, w.
      * intros H. now apply Hnd, Hnd1.
Qed.









(* ------------------------------------------------------------------ *)
(** ** Aggregation: surviving stages and weight renormalization *)




Lemma collect_stages_fold (stage_data : dict StageSnapshot) (input_id : string) :
  forall (stages : list (string * Q)) (acc : Collected),
    let c :=
      fold_left
        (fun acc '(name, weight) =>
           let stage := dict_get_default stage_data name (mkSnapshot [] []) in
           match dict_get (scores stage) input_id with
           | None => acc
           | Some [] => acc
           | Some scores =>
               let ordered := sort_desc snd scores in
               mkCollected
                 (rank_lists acc ++ [map fst ordered])
                 (stage_weights_kept acc ++ [weight])
                 (dict_set (per_stage_scores acc) name ordered)
                 (fold_left
                    (fun types partner_id =>
                       dict_set types partner_id
                         (dict_get_default
                            (dict_get_default (partner_types stage) input_id [])
                            partner_id "unknown"))
                    (keys scores) (partner_types_seen acc))
           end)
        stages acc in
    rank_lists c
    = rank_lists acc
      ++ map (fun p => ranked_partners stage_data input_id (fst p))
             (filter (stage_present stage_data input_id) stages)
    /\ stage_weights_kept c
       = stage_weights_kept acc
         ++ map snd (filter (stage_present stage_data input_id) stages).
Proof.
  induction stages as [|[name weight] rest IH]; intros acc; cbn [fold_left filter].
  - cbv zeta. cbn [map]. now rewrite !app_nil_r.
  - cbv zeta in *.
    assert (Hp : stage_present stage_data input_id (name, weight) =
                 match dict_get (scores (dict_get_default stage_data name
                                           (mkSnapshot [] []))) input_id with
                 | Some (_ :: _) => true
                 | _ => false
                 end) by reflexivity.
    assert (Hr : ranked_partners stage_data input_id name =
                 match dict_get (scores (dict_get_default stage_data name
                                           (mkSnapshot [] []))) input_id with
                 | Some scores => map fst (sort_desc snd scores)
                 | None => []
                 end) by reflexivity.
    destruct (dict_get (scores (dict_get_default stage_data name (mkSnapshot [] [])))
                       input_id) as [[|entry more]|];
      rewrite Hp; [apply IH | | apply IH].
    match goal with
    | |- context [fold_left _ rest ?a] => destruct (IH a) as [H1 H2]
    end.
    rewrite H1, H2. cbn [rank_lists stage_weights_kept map fst snd].
    rewrite Hr, <- !app_assoc. split; reflexivity.
Qed.




(* ------------------------------------------------------------------ *)
(** ** Stage runners *)





Lemma In_firstn {A : Type} (n : nat) (l : list A) (x : A) :
  In x (firstn n l) -> In x l.
Proof.
  intros H. rewrite <- (firstn_skipn n l). apply in_or_app. now left.
Qed.

Lemma In_slice_to {A : Type} (l : list A) (k : Z) (x : A) :
  In x (slice_to l k) -> In x l.
Proof. unfold slice_to. destruct (0 <=? k); apply In_firstn. Qed.

Lemma In_enumerate {A : Type} (l : list A) :
  forall start index (x : A), In (index, x) (enumerate l start) -> In x l.
Proof.
  induction l as [|y r IH]; intros start index x; cbn [enumerate In]; [tauto|].
  intros [[= _ ->] | H]; [now left | right; eauto].
Qed.

Lemma In_sort_desc {A : Type} (key : A -> Q) (l : list A) (x : A) :
  In x (sort_desc key l) -> In x l.
Proof. apply Permutation_in, sort_desc_perm. Qed.









(** C1, as stated, fails for the docking stage: its score for the pair
    (CRBN, LENALIDOMIDE) of the end-to-end test is not the scorer's value on
    the value strings of the two records. *)
Lemma docking_scores_values_counterexample :
  exists dti_rows docking_rows row,
    run_dti example_config example_inputs None = Ok dti_rows
    /\ run_docking example_config (Some dti_rows) = Ok docking_rows
    /\ nth_error docking_rows 0 = Some row
    /\ input_id row = "CRBN"
    /\ partner_id row = "LENALIDOMIDE"
    /\ ~ (score row ==
          deterministic_score
            ["MMDKEVQKSSSRTPSYQPGVSQSVE";
             "O=C1C(N(C2=CC=CC=C2)C3=CC=CC=C13)C(=O)N"; "docking"])%Q.
Proof.
  do 3 eexists.
  split; [vm_compute; reflexivity|].
  split; [vm_compute; reflexivity|].
  split; [reflexivity|].
  split; [reflexivity|].
  split; [reflexivity|].
  intros H. vm_compute in H. discriminate.
Qed.



(** C2, as stated, fails: with every top-k set to 0 the DTI stage raises
    nothing and writes one row per input. *)
Lemma top_k_zero_is_no_error_counterexample :
  dti_top_k (pipeline (with_top_k example_config 0 0 0)) < 1
  /\ exists r1 r2,
       run_dti (with_top_k example_config 0 0 0) example_inputs None = Ok [r1; r2]
       /\ rank r1 = 1 /\ rank r2 = 1.
Proof.
  split; [reflexivity|].
  do 2 eexists. split; [vm_compute; reflexivity|]. split; reflexivity.
Qed.

(* ------------------------------------------------------------------ *)
(** ** The deterministic scorer *)

Lemma le_bytes_range (n : nat) :
  forall x, Forall (fun b => 0 <= b < 256) (Blake2b.le_bytes n x).
Proof.
  induction n as [|n IH]; intros x; cbn [Blake2b.le_bytes]; constructor.
  - apply Z.mod_pos_bound. lia.
  - apply IH.
Qed.

Lemma le_bytes_length (n : nat) : forall x, length (Blake2b.le_bytes n x) = n.
Proof.
  induction n as [|n IH]; intros x; cbn [Blake2b.le_bytes length];
    [reflexivity | now rewrite IH].
Qed.

Lemma int_from_bytes_big_range (bs : list Z) :
  Forall (fun b => 0 <= b < 256) bs ->
  forall acc,
    0 <= acc ->
    0 <= fold_left (fun acc b => acc * 256 + b) bs acc
      < (acc + 1) * 256 ^ Z.of_nat (length bs).
Proof.
  induction 1 as [|b bs Hb Hbs IH]; intros acc Hacc; cbn [fold_left length].
  - cbn. lia.
  - specialize (IH (acc * 256 + b) ltac:(lia)).
    rewrite Nat2Z.inj_succ, Z.pow_succ_r by lia.
    assert (0 < 256 ^ Z.of_nat (length bs)) by (apply Z.pow_pos_nonneg; lia).
    nia.
Qed.

(** The integer read from the digest is a 64-bit unsigned integer. *)
Lemma score_digest_range (components : list string) :
  0 <= score_digest components < 2 ^ 64.
Proof.
  unfold score_digest, int_from_bytes_big, Blake2b.digest.
  match goal with
  | |- context [Blake2b.le_bytes 8 ?x] =>
      pose proof (int_from_bytes_big_range _ (le_bytes_range 8 x) 0 ltac:(lia)) as H;
      rewrite le_bytes_length in H
  end.
  change ((0 + 1) * 256 ^ Z.of_nat 8) with (2 ^ 64) in H. exact H.
Qed.

(** The int-to-float conversion of a 64-bit integer: it never exceeds 2**64,
    and it reaches 2**64 exactly from 2**64 - 1024 on. *)
Lemma float_of_int_64 (n : Z) :
  0 <= n < 2 ^ 64 ->
  0 <= float_of_int n <= 2 ^ 64
  /\ (float_of_int n < 2 ^ 64 <-> n < 2 ^ 64 - 1024).
Proof.
  intros Hn. unfold float_of_int.
  destruct (n <? 2 ^ 53) eqn:E.
  - apply Z.ltb_lt in E. lia.
  - apply Z.ltb_ge in E.
    assert (Hlog : 53 <= Z.log2 n <= 63).
    { split.
      - change 53 with (Z.log2 (2 ^ 53)). apply Z.log2_le_mono. exact E.
      - apply Z.lt_succ_r, Z.log2_lt_pow2; [| change (2 ^ Z.succ 63) with (2 ^ 64)]; lia. }
    pose proof (Z.log2_spec n ltac:(lia)) as Hspec.
    cbv zeta.
    rewrite Z.shiftr_div_pow2, Z.shiftl_mul_pow2 by lia.
    assert (Hcases : Z.log2 n = 53 \/ Z.log2 n = 54 \/ Z.log2 n = 55
                     \/ Z.log2 n = 56 \/ Z.log2 n = 57 \/ Z.log2 n = 58
                     \/ Z.log2 n = 59 \/ Z.log2 n = 60 \/ Z.log2 n = 61
                     \/ Z.log2 n = 62 \/ Z.log2 n = 63) by lia.
    repeat match goal with
           | H : _ \/ _ |- _ => destruct H as [H | H]
           end;
      rewrite Hcases in *; cbn [Z.sub Z.add Z.opp Z.pos_sub Z.succ_double
                               Z.pred_double Z.double Pos.pred_double] in *;
      repeat match goal with
             | |- context [2 ^ ?e] =>
                 let v := eval vm_compute in (2 ^ e) in change (2 ^ e) with v in *
             | H : context [2 ^ ?e] |- _ =>
                 let v := eval vm_compute in (2 ^ e) in change (2 ^ e) with v in *
             end;
      match goal with
      | |- context [Z.odd ?q] => pose proof (Zmod_odd q) as Hodd
      end;
      match goal with
      | |- context [if ?c then _ else _] =>
          destruct c eqn:C;
          [ apply orb_true_iff in C;
            destruct C as [C | C];
            [ apply Z.ltb_lt in C
            | apply andb_true_iff in C; destruct C as [C1 C2];
              apply Z.eqb_eq in C1; rewrite C2 in Hodd ]
          | apply orb_false_iff in C; destruct C as [C1 C2];
            apply Z.ltb_ge in C1;
            apply andb_false_iff in C2;
            destruct C2 as [C2 | C2];
            [ apply Z.eqb_neq in C2 | rewrite C2 in Hodd ] ]
      end;
      Z.to_euclidean_division_equations; lia.
Qed.

(** The score is a number of [[0, 1]]; it is below 1 exactly when the
    integer read from the digest is below 2**64 - 1024: from there on the
    int-to-float conversion rounds up to 2**64 and the quotient is 1.0. *)
Lemma deterministic_score_range (components : list string) :
  (0 <= deterministic_score components <= 1)%Q
  /\ ((deterministic_score components < 1)%Q <->
      score_digest components < 2 ^ 64 - 1024).
Proof.
  pose proof (float_of_int_64 _ (score_digest_range components)) as [Hr Hlt].
  unfold deterministic_score, Qle, Qlt. cbn [Qnum Qden].
  change (Z.pos (2 ^ 64)) with (2 ^ 64).
  split; [lia|]. rewrite <- Hlt. lia.
Qed.

(** The conversion does reach 2**64: the largest 64-bit integer converts
    to it, so a digest of all ones would score exactly 1. *)
Lemma float_of_int_max : float_of_int (2 ^ 64 - 1) = 2 ^ 64.
Proof. reflexivity. Qed.

(* ------------------------------------------------------------------ *)
(** ** The repository's tests and the digests of [hashlib], replayed *)

(** [hashlib.blake2b(b"", digest_size=8)] and [hashlib.blake2b(b"abc",
    digest_size=8)], read big-endian. *)
Example blake2b_8_empty : score_digest [] = 16476032584258269876.
Proof. vm_compute. reflexivity. Qed.

Example blake2b_8_abc : score_digest ["abc"] = 15617099051652453721.
Proof. vm_compute. reflexivity. Qed.

(** Messages of one full block, and of more than one block. *)
Example blake2b_8_block :
  score_digest [String.concat "" (repeat "a" 128)] = 17322607777553455322
  /\ score_digest [String.concat "" (repeat "a" 129)] = 16456807641638085273.
Proof. split; vm_compute; reflexivity. Qed.

(** Two component lists that differ in the stage tag only score
    differently. *)
Example scores_differ_by_stage_tag :
  ~ (deterministic_score ["MKT"; "CCO"; "dti"]
     == deterministic_score ["MKT"; "CCO"; "docking"])%Q.
Proof. intros H. vm_compute in H. discriminate. Qed.

(** [test_scheduler_retry_handling]. *)
Example scheduler_retry_handling :
  dispatch (mkScheduler [0] 1) flaky_worker O [new_task "flaky" tt]
  = Ok [(mkTask "flaky" tt 1 [], 0, "ok")]
  /\ map (fun c => attempts (fst c))
         (calls (fst (dispatch_run (mkScheduler [0] 1) flaky_worker O
                                   [new_task "flaky" tt])))
     = [0; 1].
Proof. split; reflexivity. Qed.

(** [test_weighted_reciprocal_rank_fusion_orders_descending]. *)
Example wrrf_orders_descending :
  exists x y z,
    weighted_reciprocal_rank_fusion
      [["X"; "Y"; "Z"]; ["Y"; "X"; "Z"]] [1 # 2; 1 # 2]%Q 10
    = Ok [("X", x); ("Y", y); ("Z", z)]
    /\ (x == y)%Q /\ (z < x)%Q.
Proof.
  do 3 eexists. split; [vm_compute; reflexivity|]. split; reflexivity.
Qed.

(** The end-to-end test's configuration: three DTI survivors are asked
    for, two exist per input; every later stage keeps two. *)
Example end_to_end_row_counts :
  exists dti_rows docking_rows mmgbsa_rows final,
    run_dti example_config example_inputs None = Ok dti_rows
    /\ run_docking example_config (Some dti_rows) = Ok docking_rows
    /\ run_mmgbsa example_config (Some docking_rows) = Ok mmgbsa_rows
    /\ run_aggregate example_config (Some dti_rows) (Some docking_rows)
                     (Some mmgbsa_rows) = Ok final
    /\ length dti_rows = 4%nat
    /\ length mmgbsa_rows = 4%nat
    /\ map fst (inputs final) = ["CRBN"; "LENALIDOMIDE"]
    /\ map global_rank (global_ranking final) = [1; 2; 3; 4].
Proof.
  do 4 eexists.
  split; [vm_compute; reflexivity|].
  split; [vm_compute; reflexivity|].
  split; [vm_compute; reflexivity|].
  split; [vm_compute; reflexivity|].
  repeat split.
Qed.

(* ================================================================== *)
(** * Further properties of the code *)

(* ------------------------------------------------------------------ *)
(** ** utils.py *)




Lemma string_append_assoc (a b c : string) :
  ((a ++ b) ++ c)%string = (a ++ b ++ c)%string.
Proof.
  induction a as [|ch a IH]; cbn [String.append]; [reflexivity | now rewrite IH].
Qed.

(** X2. The scorer sees its components only through their join with
    ["::"]: a component that contains the separator scores like the
    components it splits into, and no component scores like one empty
    component. *)
Theorem deterministic_score_separator_collision (a b c : string) :
  deterministic_score [(a ++ "::" ++ b)%string; c] = deterministic_score [a; b; c]
  /\ deterministic_score [a; (b ++ "::" ++ c)%string] = deterministic_score [a; b; c]
  /\ deterministic_score [] = deterministic_score [""].
Proof.
  unfold deterministic_score, score_digest. cbn [join].
  rewrite !string_append_assoc. repeat split.
Qed.

(** X3. Every score lies in the closed interval from 0 to 1, and it is
    below 1 exactly when the 64-bit integer read from the digest is below
    2**64 - 1024: the int-to-float conversion rounds the integers from there
    on up to 2**64. *)
Theorem deterministic_score_unit_interval (components : list string) :
  (0 <= deterministic_score components)%Q
  /\ (deterministic_score components <= 1)%Q
  /\ ((deterministic_score components < 1)%Q <->
      int_from_bytes_big
        (Blake2b.digest 8 (encode_utf8 (join "::" components)))
      < 2 ^ 64 - 1024).
Proof.
  pose proof (float_of_int_64 _ (score_digest_range components)) as [Hr Hlt].
  fold (score_digest components).
  unfold deterministic_score, Qle, Qlt. cbn [Qnum Qden].
  change (Z.pos (2 ^ 64)) with (2 ^ 64).
  split; [lia|]. split; [lia|]. rewrite <- Hlt. lia.
Qed.

(* ------------------------------------------------------------------ *)
(** ** scheduler.py *)

Section DispatchMore.
Context {P R W : Type}.
Variable self : GPUScheduler.
Variable worker : worker_t P R W.

Lemma list_sum_cons (n : nat) (l : list nat) :
  list_sum (n :: l) = (n + list_sum l)%nat.
Proof. reflexivity. Qed.





(** When the worker never fails, the results mirror the worker
    invocations, and nothing is requeued. *)
Lemma dispatch_from_no_failure (tasks : list (Task P)) (st : loop_state P R W) :
  (forall w t d, exists r, snd (worker w t d) = Ok r) ->
  map fst (results st) = calls st ->
  result_tasks (results st) ++ queue st = tasks ->
  exists rs,
    snd (dispatch_from self worker st) = Ok rs
    /\ map fst rs = calls (fst (dispatch_from self worker st))
    /\ result_tasks rs = tasks.
Proof.
  intros Hok H1 H2.
  apply (dispatch_from_invariant self worker
           (fun st => map fst (results st) = calls st
                      /\ result_tasks (results st) ++ queue st = tasks)
           (fun out => exists rs,
                snd out = Ok rs /\ map fst rs = calls (fst out)
                /\ result_tasks rs = tasks));
    [ | | now split ]; clear st H1 H2.
  - intros st st' [H1 H2] Hstep.
    destruct (queue st) as [|task rest] eqn:Hq;
      [rewrite step_empty in Hstep by exact Hq; discriminate|].
    rewrite (step_pop self worker st task rest Hq) in Hstep. cbv zeta in Hstep.
    match type of Hstep with
    | context [worker ?w ?t ?d] => destruct (Hok w t d) as [r E]; rewrite E in Hstep
    end.
    injection Hstep as <-. cbn [results calls queue]. split.
    + rewrite map_app, H1. reflexivity.
    + rewrite result_tasks_snoc. exact H2.
  - intros st out [H1 H2] Hstep.
    destruct (queue st) as [|task rest] eqn:Hq.
    + rewrite step_empty in Hstep by exact Hq. injection Hstep as <-.
      exists (results st). cbn [fst snd]. rewrite app_nil_r in H2. auto.
    + rewrite (step_pop self worker st task rest Hq) in Hstep. cbv zeta in Hstep.
      match type of Hstep with
      | context [worker ?w ?t ?d] => destruct (Hok w t d) as [r E]; rewrite E in Hstep
      end.
      discriminate.
Qed.

End DispatchMore.



(** X5. With a worker that never fails, [dispatch] returns one result per
    task, in submission order and with the attempt counters untouched; the
    [i]-th result carries the device at index [i mod len(devices)]. *)
Theorem dispatch_without_failures {P R W : Type}
    (self : GPUScheduler) (worker : worker_t P R W) (w : W) (tasks : list (Task P)) :
  devices self <> [] ->
  (forall w t d, exists r, snd (worker w t d) = Ok r) ->
  exists rs,
    dispatch self worker w tasks = Ok rs
    /\ result_tasks rs = tasks
    /\ map (fun x => snd (fst x)) rs
       = map (round_robin (devices self)) (seq 0 (length tasks)).
Proof.
  intros Hdev Hok.
  destruct (dispatch_from_no_failure self worker tasks (initial_state w tasks) Hok)
    as (rs & Hrun & Hcalls & Htasks); [reflexivity | reflexivity |].
  exists rs. split; [exact Hrun|]. split; [exact Htasks|].
  pose proof (dispatch_from_round_robin self worker (initial_state w tasks) Hdev)
    as (_ & _ & Hseq).
  { unfold round_robin_state, initial_state. cbn [iter_pos calls length map seq].
    split; [lia|]. split; reflexivity. }
  rewrite <- Hcalls in Hseq. rewrite map_map in Hseq. rewrite Hseq.
  rewrite length_map. do 2 f_equal.
  rewrite <- Htasks. unfold result_tasks. now rewrite length_map.
Qed.

Lemma dispatch_without_failures_witness :
  exists rs,
    dispatch (mkScheduler [0; 1] 0)
             (fun (w : unit) (t : Task Z) (d : Z) => (w, Ok (payload t * 2)))
             tt [new_task "a" 1; new_task "b" 2; new_task "c" 3] = Ok rs
    /\ result_tasks rs = [new_task "a" 1; new_task "b" 2; new_task "c" 3]
    /\ map (fun x => snd (fst x)) rs
       = map (round_robin (devices (mkScheduler [0; 1] 0)))
             (seq 0 (length [new_task "a" 1; new_task "b" 2; new_task "c" 3])).
Proof.
  apply (dispatch_without_failures (mkScheduler [0; 1] 0)
           (fun (w : unit) (t : Task Z) (d : Z) => (w, Ok (payload t * 2))) tt
           [new_task "a" 1; new_task "b" 2; new_task "c" 3]).
  - discriminate.
  - intros w t d. eexists. reflexivity.
Defined.

(** X6. [dispatch] raises nothing of its own: an exception that leaves
    [dispatch] is the one the worker raised in the last invocation, and a
    [RetryableError] leaves it only when that task's incremented attempt
    counter exceeds [max_retries]. *)
Theorem dispatch_raises_worker_error {P R W : Type}
    (self : GPUScheduler) (worker : worker_t P R W) (w : W) (tasks : list (Task P))
    (e : exn) :
  dispatch self worker w tasks = Raise e ->
  exists earlier task device w',
    calls (fst (dispatch_run self worker w tasks)) = earlier ++ [(task, device)]
    /\ snd (worker w' task device) = Raise e
    /\ (e = RetryableError -> attempts task + 1 > max_retries self).
Proof.
  unfold dispatch, dispatch_run.
  apply (dispatch_from_invariant self worker (fun _ => True)
           (fun out => snd out = Raise e ->
              exists earlier task device w',
                calls (fst out) = earlier ++ [(task, device)]
                /\ snd (worker w' task device) = Raise e
                /\ (e = RetryableError -> attempts task + 1 > max_retries self)));
    [ trivial | | trivial ].
  intros st out _ Hstep Hraise.
  destruct (queue st) as [|task rest] eqn:Hq.
  - rewrite step_empty in Hstep by exact Hq. injection Hstep as <-. discriminate.
  - rewrite (step_pop self worker st task rest Hq) in Hstep. cbv zeta in Hstep.
    destruct (snd (worker _ _ _)) as [res|e'] eqn:E; [discriminate|].
    exists (calls st), task.
    destruct e' as [msg|msg| |msg];
      try (injection Hstep as <-; cbn [snd fst calls] in *;
           injection Hraise as <-;
           eexists; exists (wstate st); split; [reflexivity|];
           split; [exact E | discriminate]).
    destruct (attempts task + 1 >? max_retries self) eqn:G; [|discriminate].
    injection Hstep as <-. cbn [snd fst calls] in *. injection Hraise as <-.
    eexists; exists (wstate st). split; [reflexivity|].
    split; [exact E|]. intros _.
    rewrite Z.gtb_ltb in G. apply Z.ltb_lt in G. lia.
Qed.

Lemma dispatch_raises_worker_error_witness :
  exists earlier task device w',
    calls (fst (dispatch_run (mkScheduler [0] 0)
                  (fun (w : unit) (t : Task unit) (d : Z) =>
                     (w, @Raise unit RetryableError))
                  tt [new_task "t" tt]))
    = earlier ++ [(task, device)]
    /\ snd ((fun (w : unit) (t : Task unit) (d : Z) =>
               (w, @Raise unit RetryableError)) w' task device)
       = Raise RetryableError
    /\ (RetryableError = RetryableError ->
        attempts task + 1 > max_retries (mkScheduler [0] 0)).
Proof.
  apply (dispatch_raises_worker_error (mkScheduler [0] 0)
           (fun (w : unit) (t : Task unit) (d : Z) => (w, @Raise unit RetryableError))
           tt [new_task "t" tt] RetryableError).
  reflexivity.
Defined.

(** X7. Every device handed to the worker is a member of the scheduler's
    device pool, whatever the worker does. *)
Theorem dispatch_devices_from_pool {P R W : Type}
    (self : GPUScheduler) (worker : worker_t P R W) (w : W) (tasks : list (Task P)) :
  devices self <> [] ->
  Forall (fun d => In d (devices self)) (device_sequence self worker w tasks).
Proof.
  intros Hdev. unfold device_sequence, dispatch_run.
  pose proof (dispatch_from_round_robin self worker (initial_state w tasks) Hdev)
    as (_ & _ & Hseq).
  { unfold round_robin_state, initial_state. cbn [iter_pos calls length map seq].
    split; [lia|]. split; reflexivity. }
  rewrite Hseq. apply Forall_map, Forall_forall. intros k _.
  unfold round_robin. apply nth_In, Nat.mod_upper_bound.
  destruct (devices self); [congruence | discriminate].
Qed.

Lemma dispatch_devices_from_pool_witness :
  Forall (fun d => In d (devices (mkScheduler [0; 1] 1)))
         (device_sequence (mkScheduler [0; 1] 1) flaky_worker O [new_task "flaky" tt]).
Proof.
  apply (dispatch_devices_from_pool (mkScheduler [0; 1] 1) flaky_worker O
           [new_task "flaky" tt]).
  discriminate.
Defined.

(* ------------------------------------------------------------------ *)
(** ** consensus.py *)

Lemma wrrf_ok_inv (rank_lists : list (list string)) (weights : list Q)
    (constant : Z) (fused : dict Q) :
  weighted_reciprocal_rank_fusion rank_lists weights constant = Ok fused ->
  length rank_lists = length weights
  /\ 0 < constant
  /\ fused = sort_desc snd (wrrf_accumulate rank_lists weights constant).
Proof.
  unfold weighted_reciprocal_rank_fusion.
  destruct (length rank_lists =? length weights)%nat eqn:El; cbn [negb];
    [| discriminate].
  destruct (constant <=? 0) eqn:Ec; [discriminate|].
  intros [= <-]. apply Nat.eqb_eq in El. apply Z.leb_gt in Ec. auto.
Qed.


Lemma wrrf_accumulate_NoDup (rank_lists : list (list string)) (weights : list Q)
    (constant : Z) :
  NoDup (keys (wrrf_accumulate rank_lists weights constant)).
Proof.
  pose proof (wrrf_loop_spec constant (zip rank_lists weights) []) as H.
  cbv zeta in H. destruct H as (_ & _ & Hnd). apply Hnd. constructor.
Qed.








(** Sorting a list that is already in descending order changes nothing. *)
Lemma sort_desc_sorted_id {A : Type} (key : A -> Q) (l : list A) :
  sorted_desc key l -> sort_desc key l = l.
Proof.
  unfold sorted_desc. induction 1 as [|x r Hr IH Hall];
    cbn [sort_desc fold_right]; [reflexivity|].
  fold (sort_desc key r). rewrite IH.
  destruct r as [|y r']; cbn [insert_desc]; [reflexivity|].
  inversion Hall as [|? ? Hy _]; subst.
  apply Qle_bool_iff in Hy. now rewrite Hy.
Qed.

Lemma sorted_desc_ext {A : Type} (key key' : A -> Q) (l : list A) :
  (forall x, In x l -> key x = key' x) ->
  sorted_desc key l -> sorted_desc key' l.
Proof.
  unfold sorted_desc. intros Hext Hs.
  induction Hs as [|x r Hr IH Hall]; constructor.
  - apply IH. intros y Hy. apply Hext. now right.
  - rewrite Forall_forall in *. intros y Hy.
    rewrite <- (Hext x), <- (Hext y); [now apply Hall | now right | now left].
Qed.

Lemma value_of_cons_other (k0 : string) (v0 : Q) (r : dict Q) (k : string) :
  k <> k0 -> value_of ((k0, v0) :: r) k = value_of r k.
Proof.
  intros Hne. unfold value_of, dict_get_default. cbn [dict_get].
  destruct (String.eqb k0 k) eqn:E; [| reflexivity].
  apply String.eqb_eq in E. congruence.
Qed.

(** In a dictionary sorted by value, the keys are sorted by their value. *)
Lemma keys_sorted_by_value (d : dict Q) :
  NoDup (keys d) -> sorted_desc snd d -> sorted_desc (value_of d) (keys d).
Proof.
  unfold sorted_desc, keys.
  induction d as [|[k0 v0] r IH]; cbn [map fst]; intros Hnd Hs; [constructor|].
  inversion Hnd as [|? ? Hnotin Hnd']; subst.
  inversion Hs as [|? ? Hr Hall]; subst.
  assert (Hext : forall k, In k (map fst r) ->
                           value_of r k = value_of ((k0, v0) :: r) k).
  { intros k Hk. symmetry. apply value_of_cons_other. congruence. }
  constructor.
  - apply (sorted_desc_ext (value_of r)); [exact Hext | now apply IH].
  - assert (H0 : value_of ((k0, v0) :: r) k0 = v0).
    { unfold value_of, dict_get_default. cbn [dict_get].
      now rewrite String.eqb_refl. }
    rewrite H0. rewrite Forall_forall in *. intros k Hk.
    rewrite <- (Hext k Hk).
    apply in_map_iff in Hk. destruct Hk as ([k' v'] & <- & Hin).
    cbn [fst]. specialize (Hall _ Hin). cbn [snd] in Hall.
    unfold value_of, dict_get_default.
    now rewrite (In_dict_get r k' v' Hnd' Hin).
Qed.

(** X9. [ConsensusResult.ranked] returns the candidates of its scores,
    each once when the keys are distinct, in descending order of score; on
    the mapping returned by [weighted_reciprocal_rank_fusion] it returns the
    keys in the order the mapping already has, ties included. *)
Theorem ranked_of_fusion (rank_lists : list (list string)) (weights : list Q)
    (constant : Z) (self : ConsensusResult) :
  Permutation (ranked self) (keys (consensus_scores self))
  /\ sorted_desc (value_of (consensus_scores self)) (ranked self)
  /\ (forall fused,
        weighted_reciprocal_rank_fusion rank_lists weights constant = Ok fused ->
        ranked (mkConsensus fused) = keys fused).
Proof.
  split; [apply sort_desc_perm|]. split; [apply sort_desc_sorted|].
  intros fused H. apply wrrf_ok_inv in H. destruct H as (_ & _ & ->).
  unfold ranked. cbn [consensus_scores].
  apply sort_desc_sorted_id.
  apply (keys_sorted_by_value (sort_desc snd _)).
  - eapply Permutation_NoDup;
      [apply Permutation_map, Permutation_sym, sort_desc_perm|].
    apply wrrf_accumulate_NoDup.
  - apply sort_desc_sorted.
Qed.

Lemma ranked_of_fusion_witness :
  ranked (mkConsensus [("X", 46 # 528); ("Y", 46 # 528); ("Z", 52 # 676)]%Q)
  = keys [("X", 46 # 528); ("Y", 46 # 528); ("Z", 52 # 676)]%Q.
Proof.
  apply (proj2 (proj2 (ranked_of_fusion [["X"; "Y"; "Z"]; ["Y"; "X"; "Z"]]
                         [1 # 2; 1 # 2]%Q 10 (mkConsensus [])))).
  vm_compute. reflexivity.
Defined.

Section Scaling.
Variable k : Q.
Hypothesis k_pos : (0 < k)%Q.










End Scaling.




(* ------------------------------------------------------------------ *)
(** ** pipeline/dti.py *)

Lemma enumerate_length {A : Type} (l : list A) :
  forall start, length (enumerate l start) = length l.
Proof.
  induction l as [|x r IH]; intros start; cbn [enumerate length];
    [reflexivity | now rewrite IH].
Qed.

Lemma enumerate_snd {A : Type} (l : list A) :
  forall start, map snd (enumerate l start) = l.
Proof.
  induction l as [|x r IH]; intros start; cbn [enumerate map snd];
    [reflexivity | now rewrite IH].
Qed.

Lemma enumerate_fst {A : Type} (l : list A) :
  forall start,
    map fst (enumerate l start)
    = map (fun i => start + Z.of_nat i) (seq 0 (length l)).
Proof.
  induction l as [|x r IH]; intros start; cbn [enumerate map fst length seq];
    [reflexivity|].
  rewrite IH, <- seq_shift, map_map. f_equal; [lia|].
  apply map_ext. intros i. lia.
Qed.

Lemma enumerate_ranks {A : Type} (l : list A) :
  map fst (enumerate l 1) = rank_range (length l).
Proof.
  rewrite enumerate_fst. unfold rank_range.
  rewrite <- seq_shift, map_map. apply map_ext. intros i. lia.
Qed.

Lemma slice_to_length {A : Type} (l : list A) (k : Z) :
  length (slice_to l k) = slice_count (length l) k.
Proof.
  unfold slice_to, slice_count. destruct (0 <=? k); rewrite length_firstn; lia.
Qed.

Lemma sorted_desc_firstn {A : Type} (key : A -> Q) (n : nat) (l : list A) :
  sorted_desc key l -> sorted_desc key (firstn n l).
Proof.
  unfold sorted_desc. intros Hs. revert n.
  induction Hs as [|x r Hr IH Hall]; intros [|n]; cbn [firstn];
    try constructor.
  - apply IH.
  - rewrite Forall_forall in *. intros y Hy. apply Hall.
    now apply In_firstn in Hy.
Qed.

Lemma sorted_desc_slice_to {A : Type} (key : A -> Q) (l : list A) (k : Z) :
  sorted_desc key l -> sorted_desc key (slice_to l k).
Proof. unfold slice_to. destruct (0 <=? k); apply sorted_desc_firstn. Qed.

Lemma sorted_desc_map {A B : Type} (key : B -> Q) (f : A -> B) (l : list A) :
  sorted_desc (fun x => key (f x)) l -> sorted_desc key (map f l).
Proof.
  unfold sorted_desc. induction 1 as [|x r Hr IH Hall]; cbn [map]; constructor.
  - exact IH.
  - now apply Forall_map.
Qed.

Lemma sorted_desc_enumerate {A : Type} (key : A -> Q) (l : list A) :
  sorted_desc key l ->
  forall start, sorted_desc (fun x => key (snd x)) (enumerate l start).
Proof.
  unfold sorted_desc. induction 1 as [|x r Hr IH Hall]; intros start;
    cbn [enumerate]; constructor.
  - apply IH.
  - rewrite Forall_forall in *. intros [i y] Hy. cbn [snd].
    apply Hall. eapply In_enumerate. exact Hy.
Qed.

(** The rows built from a ranked selection: their ranks and their order. *)
Lemma ranked_rows_shape {A : Type} (mk : Z * (A * Q) -> Row) (scored : list (A * Q))
    (top_k : Z) :
  (forall x, rank (mk x) = fst x) ->
  (forall x, score (mk x) = snd (snd x)) ->
  let rows := map mk (enumerate (slice_to (sort_desc snd scored) top_k) 1) in
  map rank rows = rank_range (length rows)
  /\ sorted_desc score rows
  /\ length rows = slice_count (length scored) top_k.
Proof.
  intros Hrank Hscore. cbv zeta.
  rewrite length_map, enumerate_length, slice_to_length.
  rewrite (Permutation_length (sort_desc_perm snd scored)).
  split; [|split; [|reflexivity]].
  - rewrite map_map, (map_ext _ fst) by exact Hrank.
    rewrite enumerate_ranks, slice_to_length.
    now rewrite (Permutation_length (sort_desc_perm snd scored)).
  - apply sorted_desc_map.
    apply (sorted_desc_ext (fun x => snd (snd x)));
      [intros x _; symmetry; apply Hscore|].
    apply (sorted_desc_enumerate snd), sorted_desc_slice_to, sort_desc_sorted.
Qed.

(** X11. [_rank_partners] emits the rows of one input in rank order: the
    ranks are 1, 2, ..., K without gap, the scores never increase along
    them, and K is what the slice [[:top_k]] keeps of the partners (all of
    them when there are fewer than [top_k]; for a negative [top_k], all but
    the last [-top_k]); every row carries the input's id and the tag
    "dti". *)
Theorem _rank_partners_shape (record : InputRecord) (partners : list PartnerRecord)
    (top_k : Z) :
  let rows := _rank_partners record partners top_k in
  map rank rows = rank_range (length rows)
  /\ sorted_desc score rows
  /\ length rows = slice_count (length partners) top_k
  /\ Forall (fun row => input_id row = input_rec_id record /\ stage row = "dti") rows.
Proof.
  cbv zeta. unfold _rank_partners.
  match goal with
  | |- context [map ?mk (enumerate (slice_to (sort_desc snd ?sc) top_k) 1)] =>
      pose proof (ranked_rows_shape mk sc top_k) as H
  end.
  cbv zeta in H. destruct H as (H1 & H2 & H3).
  { now intros [r [p s]]. }
  { now intros [r [p s]]. }
  split; [exact H1|]. split; [exact H2|]. split.
  - rewrite H3. now rewrite length_map.
  - apply Forall_map, Forall_forall. intros [r [p s]] _. now split.
Qed.








(* ------------------------------------------------------------------ *)
(** ** pipeline/docking.py and pipeline/mmgbsa.py *)

Lemma dict_get_default_set {V : Type} (d : dict V) k v k' (default : V) :
  dict_get_default (dict_set d k v) k' default
  = if String.eqb k k' then v else dict_get_default d k' default.
Proof.
  unfold dict_get_default. rewrite dict_get_set. now destruct (String.eqb k k').
Qed.

(** The grouping loop, from any state of the grouping dictionary. *)
Lemma group_fold_spec (rows : list Row) :
  forall (acc : dict (list Row)),
    let grouped :=
      fold_left
        (fun (grouped : dict (list Row)) row =>
           dict_set grouped (input_id row)
                    (dict_get_default grouped (input_id row) [] ++ [row]))
        rows acc in
    (forall i, dict_get_default grouped i []
               = dict_get_default acc i [] ++ rows_of_input i rows)
    /\ (forall i, In i (keys grouped) <->
                  In i (keys acc) \/ exists row, In row rows /\ input_id row = i)
    /\ (NoDup (keys acc) -> NoDup (keys grouped)).
Proof.
  induction rows as [|row rest IH]; intros acc; cbn [fold_left].
  - cbv zeta. cbn [rows_of_input filter In].
    split; [intros i; now rewrite app_nil_r|]. split; [| tauto].
    intros i. split; [tauto | intros [H | (r & [] & _)]; exact H].
  - specialize (IH (dict_set acc (input_id row)
                             (dict_get_default acc (input_id row) [] ++ [row]))).
    cbv zeta in *. destruct IH as (Hget & Hkeys & Hnd).
    split; [|split].
    + intros i. rewrite Hget, dict_get_default_set.
      unfold rows_of_input. cbn [filter].
      destruct (String.eqb (input_id row) i) eqn:E.
      * apply String.eqb_eq in E. subst i. now rewrite <- app_assoc.
      * reflexivity.
    + intros i. rewrite Hkeys, keys_dict_set. cbn [In]. split.
      * intros [[H | ->] | (r & Hr & Hi)]; [now left | | right; eauto].
        right. exists row. auto.
      * intros [H | (r & [<- | Hr] & Hi)]; [now left; left | | right; eauto].
        left. right. now symmetry.
    + intros H. now apply Hnd, NoDup_keys_dict_set.
Qed.

Lemma rows_of_input_nil_iff (i : string) (rows : list Row) :
  rows_of_input i rows = [] <-> ~ exists row, In row rows /\ input_id row = i.
Proof.
  unfold rows_of_input. split.
  - intros H (row & Hin & Hi).
    assert (Hf : In row (filter (fun r => String.eqb (input_id r) i) rows)).
    { apply filter_In. split; [exact Hin|]. now apply String.eqb_eq. }
    rewrite H in Hf. exact Hf.
  - intros H.
    destruct (filter (fun r => String.eqb (input_id r) i) rows) as [|r rs] eqn:E;
      [reflexivity|].
    exfalso. apply H. exists r.
    assert (Hf : In r (filter (fun r => String.eqb (input_id r) i) rows))
      by (rewrite E; now left).
    apply filter_In in Hf. destruct Hf as [Hin Hi].
    apply String.eqb_eq in Hi. auto.
Qed.

(** X14. [grouped] after the grouping loop of the docking and MM/GBSA
    stages: its keys are distinct, and the group of an input id is the list
    of the source rows with that id, in file order; an id without rows has
    no group. *)
Theorem group_rows_partition (rows : list Row) :
  NoDup (keys (group_rows rows))
  /\ forall i,
       dict_get (group_rows rows) i
       = match rows_of_input i rows with
         | [] => None
         | group => Some group
         end.
Proof.
  pose proof (group_fold_spec rows []) as H. cbv zeta in H.
  fold (group_rows rows) in H. destruct H as (Hget & Hkeys & Hnd).
  split; [apply Hnd; constructor|].
  intros i. specialize (Hget i). specialize (Hkeys i).
  unfold dict_get_default in Hget. cbn [dict_get app] in Hget.
  destruct (dict_get (group_rows rows) i) as [g|] eqn:E.
  - subst g.
    destruct (rows_of_input i rows) eqn:Er; [| reflexivity].
    exfalso. apply rows_of_input_nil_iff in Er. apply Er.
    assert (Hin : In i (keys (group_rows rows))).
    { apply dict_get_Some_In in E. change i with (fst (i, @nil Row)).
      now apply in_map. }
    apply Hkeys in Hin. destruct Hin as [[] | Hex]. exact Hex.
  - now rewrite <- Hget.
Qed.

Lemma group_rows_entry (rows : list Row) (i : string) (group : list Row) :
  In (i, group) (group_rows rows) ->
  group = rows_of_input i rows /\ group <> [].
Proof.
  intros Hin. destruct (group_rows_partition rows) as [Hnd Hget].
  apply (In_dict_get _ _ _ Hnd) in Hin. rewrite Hget in Hin.
  destruct (rows_of_input i rows); [discriminate|].
  injection Hin as <-. split; [reflexivity | discriminate].
Qed.

Lemma rows_of_input_all (i : string) (rows : list Row) :
  Forall (fun row => input_id row = i) rows -> rows_of_input i rows = rows.
Proof.
  unfold rows_of_input. induction 1 as [|row rest Hrow _ IH]; cbn [filter];
    [reflexivity|].
  apply String.eqb_eq in Hrow. now rewrite Hrow, IH.
Qed.

Lemma rows_of_input_none (i : string) (rows : list Row) :
  Forall (fun row => input_id row <> i) rows -> rows_of_input i rows = [].
Proof.
  unfold rows_of_input. induction 1 as [|row rest Hrow _ IH]; cbn [filter];
    [reflexivity|].
  apply String.eqb_neq in Hrow. now rewrite Hrow, IH.
Qed.

Lemma rows_of_input_idem (i : string) (rows : list Row) :
  rows_of_input i (rows_of_input i rows) = rows_of_input i rows.
Proof.
  apply rows_of_input_all, Forall_forall. intros row Hin.
  apply filter_In in Hin. now apply String.eqb_eq.
Qed.


Lemma rescore_rows_groups (stage_tag : string) (top_k : Z) (rows : list Row) :
  rescore_rows stage_tag top_k rows
  = flat_map (fun g => rescore_group stage_tag top_k (snd g)) (group_rows rows).
Proof. unfold rescore_rows. apply flat_map_ext. now intros [k g]. Qed.

Lemma rescore_group_input (stage_tag : string) (top_k : Z) (candidates : list Row)
    (i : string) :
  Forall (fun row => input_id row = i) candidates ->
  Forall (fun row => input_id row = i) (rescore_group stage_tag top_k candidates).
Proof.
  intros Hall. apply Forall_map, Forall_forall. intros [r [item sc]] Hin.
  cbn [input_id].
  apply In_enumerate, In_slice_to, In_sort_desc in Hin.
  apply in_map_iff in Hin. destruct Hin as (item' & [= -> _] & Hin).
  rewrite Forall_forall in Hall. now apply Hall.
Qed.

Lemma rows_of_input_Forall (i : string) (rows : list Row) :
  Forall (fun row => input_id row = i) (rows_of_input i rows).
Proof.
  apply Forall_forall. intros row Hin. apply filter_In in Hin.
  now apply String.eqb_eq.
Qed.

(** The groups of rows that all belong to one input. *)
Lemma group_rows_single (i : string) (group : list Row) :
  group <> [] -> Forall (fun row => input_id row = i) group ->
  group_rows group = [(i, group)].
Proof.
  intros Hne Hall.
  destruct (group_rows_partition group) as [Hnd Hget].
  pose proof (group_fold_spec group []) as (_ & Hkeys & _). cbv zeta in Hkeys.
  fold (group_rows group) in Hkeys.
  destruct (group_rows group) as [|[k g] rest] eqn:E.
  - exfalso. destruct group as [|row group']; [congruence|].
    specialize (Hget (input_id row)). cbn [dict_get] in Hget.
    unfold rows_of_input in Hget. cbn [filter] in Hget.
    rewrite String.eqb_refl in Hget. discriminate.
  - assert (Hk : forall k', In k' (keys ((k, g) :: rest)) -> k' = i).
    { intros k' Hk'. apply Hkeys in Hk'.
      destruct Hk' as [[] | (row & Hrow & <-)].
      rewrite Forall_forall in Hall. now apply Hall. }
    assert (k = i) by (apply Hk; now left). subst k.
    destruct rest as [|[k2 g2] rest'].
    + f_equal. f_equal.
      specialize (Hget i). cbn [dict_get] in Hget.
      rewrite String.eqb_refl, (rows_of_input_all i group Hall) in Hget.
      destruct group; [congruence | now injection Hget].
    + exfalso. assert (k2 = i) by (apply Hk; right; now left). subst k2.
      cbn [keys map fst] in Hnd. inversion Hnd as [|? ? Hnot _]; subst.
      apply Hnot. now left.
Qed.

(** Selecting one input from the output of grouped processing. *)
Lemma rows_of_input_groups (f : list Row -> list Row) (i : string) :
  (forall k g, Forall (fun row => input_id row = k) g ->
               Forall (fun row => input_id row = k) (f g)) ->
  forall groups : dict (list Row),
    NoDup (keys groups) ->
    (forall k g, In (k, g) groups -> Forall (fun row => input_id row = k) g) ->
    rows_of_input i (flat_map (fun g => f (snd g)) groups)
    = match dict_get groups i with
      | Some g => f g
      | None => []
      end.
Proof.
  intros Hf. induction groups as [|[k g] rest IH]; intros Hnd Hgroups;
    cbn [flat_map dict_get snd]; [reflexivity|].
  unfold rows_of_input. rewrite filter_app. fold (rows_of_input i (f g)).
  fold (rows_of_input i (flat_map (fun g => f (snd g)) rest)).
  cbn [keys map fst] in Hnd. inversion Hnd as [|? ? Hnot Hnd']; subst.
  assert (Hg : Forall (fun row => input_id row = k) (f g))
    by (apply Hf, Hgroups; now left).
  rewrite IH; [| exact Hnd' | intros k2 g2 H2; apply Hgroups; now right].
  destruct (String.eqb k i) eqn:E.
  - apply String.eqb_eq in E. subst k.
    rewrite (rows_of_input_all i _ Hg).
    assert (Hnone : dict_get rest i = None) by now apply dict_get_None.
    rewrite Hnone. apply app_nil_r.
  - apply String.eqb_neq in E.
    rewrite (rows_of_input_none i (f g)); [reflexivity|].
    eapply Forall_impl; [| exact Hg]. cbv beta. intros row ->. exact E.
Qed.

(** The rows of one input in the output of a later stage are computed
    from that input's source rows alone. *)
Lemma rescore_rows_of_input (stage_tag : string) (top_k : Z) (rows : list Row)
    (i : string) :
  rows_of_input i (rescore_rows stage_tag top_k rows)
  = rescore_rows stage_tag top_k (rows_of_input i rows)
  /\ rows_of_input i (rescore_rows stage_tag top_k rows)
     = match rows_of_input i rows with
       | [] => []
       | group => rescore_group stage_tag top_k group
       end.
Proof.
  destruct (group_rows_partition rows) as [Hnd Hget].
  assert (Hsel : rows_of_input i (rescore_rows stage_tag top_k rows)
                 = match rows_of_input i rows with
                   | [] => []
                   | group => rescore_group stage_tag top_k group
                   end).
  { rewrite rescore_rows_groups.
    rewrite (rows_of_input_groups (rescore_group stage_tag top_k) i).
    - rewrite Hget. now destruct (rows_of_input i rows).
    - intros k g. apply rescore_group_input.
    - exact Hnd.
    - intros k g Hin. apply group_rows_entry in Hin. destruct Hin as [-> _].
      apply rows_of_input_Forall. }
  split; [| exact Hsel].
  rewrite Hsel.
  destruct (rows_of_input i rows) as [|r0 rs0] eqn:Eg; [reflexivity|].
  rewrite rescore_rows_groups, (group_rows_single i).
  - cbn [flat_map snd]. now rewrite app_nil_r.
  - discriminate.
  - rewrite <- Eg. apply rows_of_input_Forall.
Qed.

Lemma rescore_group_shape (stage_tag : string) (top_k : Z) (group : list Row) :
  map rank (rescore_group stage_tag top_k group)
  = rank_range (length (rescore_group stage_tag top_k group))
  /\ sorted_desc score (rescore_group stage_tag top_k group)
  /\ length (rescore_group stage_tag top_k group) = slice_count (length group) top_k.
Proof.
  unfold rescore_group.
  match goal with
  | |- context [map ?mk (enumerate (slice_to (sort_desc snd ?sc) top_k) 1)] =>
      pose proof (ranked_rows_shape mk sc top_k) as H
  end.
  cbv zeta in H. destruct H as (H1 & H2 & H3).
  { now intros [r [p s]]. }
  { now intros [r [p s]]. }
  split; [exact H1|]. split; [exact H2|]. rewrite H3. now rewrite length_map.
Qed.

(** X15. In the rows that [run_docking] and [run_mmgbsa] write, the rows
    of each input are what the stage computes from that input's source rows
    alone; their ranks are 1, 2, ..., K without gap, their scores never
    increase along the ranks, and K is the smaller of the clamped top-k and
    the number of source rows of the input. *)
Theorem later_stage_rows_per_input (config : Config) (source_rows : list Row)
    (i : string) :
  let shape (run : Config -> option (list Row) -> result (list Row)) (k : Z) :=
    exists out,
      run config (Some source_rows) = Ok out
      /\ run config (Some (rows_of_input i source_rows)) = Ok (rows_of_input i out)
      /\ map rank (rows_of_input i out) = rank_range (length (rows_of_input i out))
      /\ sorted_desc score (rows_of_input i out)
      /\ length (rows_of_input i out)
         = Nat.min (Z.to_nat (Z.max 1 k)) (length (rows_of_input i source_rows)) in
  shape run_docking (docking_top_k (pipeline config))
  /\ shape run_mmgbsa (mmgbsa_top_k (pipeline config)).
Proof.
  assert (Hshape : forall tag k,
             1 <= k ->
             let out := rescore_rows tag k source_rows in
             rescore_rows tag k (rows_of_input i source_rows) = rows_of_input i out
             /\ map rank (rows_of_input i out)
                = rank_range (length (rows_of_input i out))
             /\ sorted_desc score (rows_of_input i out)
             /\ length (rows_of_input i out)
                = Nat.min (Z.to_nat k) (length (rows_of_input i source_rows))).
  { intros tag k Hk. cbv zeta.
    destruct (rescore_rows_of_input tag k source_rows i) as [Hind Hsel].
    split; [now symmetry|]. rewrite Hsel.
    destruct (rows_of_input i source_rows) as [|r0 rs0] eqn:Eg.
    - cbn. repeat split; [constructor | lia].
    - destruct (rescore_group_shape tag k (r0 :: rs0)) as (H1 & H2 & H3).
      split; [exact H1|]. split; [exact H2|]. rewrite H3. unfold slice_count.
      destruct (0 <=? k) eqn:Ez; [reflexivity | apply Z.leb_gt in Ez; lia]. }
  cbv zeta. split.
  - eexists. split; [reflexivity|]. unfold run_docking.
    destruct (Hshape "docking" (Z.max 1 (docking_top_k (pipeline config)))
                ltac:(lia)) as (H0 & H1 & H2 & H3).
    rewrite H0. repeat split; assumption.
  - eexists. split; [reflexivity|]. unfold run_mmgbsa.
    destruct (Hshape "mmgbsa" (Z.max 1 (mmgbsa_top_k (pipeline config)))
                ltac:(lia)) as (H0 & H1 & H2 & H3).
    rewrite H0. repeat split; assumption.
Qed.

Lemma group_sizes_set (d : dict (list Row)) (k : string) (row : Row) :
  list_sum (map (fun g => length (snd g))
                (dict_set d k (dict_get_default d k [] ++ [row])))
  = S (list_sum (map (fun g => length (snd g)) d)).
Proof.
  unfold dict_get_default.
  induction d as [|[k0 g0] r IH]; cbn [dict_set dict_get map snd].
  - cbn. reflexivity.
  - destruct (String.eqb k0 k) eqn:E; cbn [map snd].
    + rewrite !list_sum_cons, length_app. cbn [length]. lia.
    + rewrite !list_sum_cons.
      destruct (dict_get r k) as [g|]; rewrite IH; lia.
Qed.

Lemma group_sizes_fold (rows : list Row) :
  forall acc : dict (list Row),
    list_sum (map (fun g => length (snd g))
                  (fold_left
                     (fun (grouped : dict (list Row)) row =>
                        dict_set grouped (input_id row)
                                 (dict_get_default grouped (input_id row) [] ++ [row]))
                     rows acc))
    = (list_sum (map (fun g => length (snd g)) acc) + length rows)%nat.
Proof.
  induction rows as [|row rest IH]; intros acc; cbn [fold_left length]; [lia|].
  rewrite IH, group_sizes_set. lia.
Qed.

Lemma list_sum_le {A : Type} (f g : A -> nat) (l : list A) :
  (forall x, In x l -> (f x <= g x)%nat) ->
  (list_sum (map f l) <= list_sum (map g l))%nat.
Proof.
  induction l as [|x r IH]; intros H; cbn [map]; [lia|].
  rewrite !list_sum_cons.
  specialize (H x (or_introl eq_refl)) as Hx.
  assert (list_sum (map f r) <= list_sum (map g r))%nat
    by (apply IH; intros y Hy; apply H; now right).
  lia.
Qed.

Lemma slice_count_le (n : nat) (k : Z) : (slice_count n k <= n)%nat.
Proof. unfold slice_count. destruct (0 <=? k); lia. Qed.

Lemma rescore_rows_length (stage_tag : string) (top_k : Z) (rows : list Row) :
  (length (rescore_rows stage_tag top_k rows) <= length rows)%nat.
Proof.
  rewrite rescore_rows_groups, length_flat_map.
  pose proof (group_sizes_fold rows []) as Hsum. cbn [map list_sum] in Hsum.
  fold (group_rows rows) in Hsum.
  change (list_sum []) with O in Hsum. rewrite Nat.add_0_l in Hsum.
  rewrite <- Hsum. apply list_sum_le. intros [k g] _. cbn [snd].
  destruct (rescore_group_shape stage_tag top_k g) as (_ & _ & ->).
  apply slice_count_le.
Qed.

Lemma rescore_rows_source (stage_tag : string) (top_k : Z) (rows : list Row)
    (row : Row) :
  In row (rescore_rows stage_tag top_k rows) ->
  exists src,
    In src rows
    /\ input_id row = input_id src
    /\ partner_id row = partner_id src
    /\ partner_type row = partner_type src.
Proof.
  rewrite rescore_rows_groups. intros Hin.
  apply in_flat_map in Hin. destruct Hin as ([k g] & Hg & Hrow).
  apply group_rows_entry in Hg. destruct Hg as [-> _].
  cbn [snd] in Hrow. unfold rescore_group in Hrow.
  apply in_map_iff in Hrow. destruct Hrow as ([r [item sc]] & <- & Hin).
  apply In_enumerate, In_slice_to, In_sort_desc in Hin.
  apply in_map_iff in Hin. destruct Hin as (item' & [= -> _] & Hin).
  apply filter_In in Hin. exists item. cbn. tauto.
Qed.

Lemma rescore_rows_keeps_input (stage_tag : string) (top_k : Z) (rows : list Row)
    (src : Row) :
  1 <= top_k ->
  In src rows ->
  exists row,
    In row (rescore_rows stage_tag top_k rows)
    /\ input_id row = input_id src /\ rank row = 1.
Proof.
  intros Hk Hsrc.
  destruct (rescore_rows_of_input stage_tag top_k rows (input_id src)) as [_ Hsel].
  assert (Hin : In src (rows_of_input (input_id src) rows)).
  { apply filter_In. split; [exact Hsrc | apply String.eqb_refl]. }
  destruct (rows_of_input (input_id src) rows) as [|r0 rs0] eqn:Eg; [contradiction|].
  destruct (rescore_group_shape stage_tag top_k (r0 :: rs0)) as (Hranks & _ & Hlen).
  destruct (rescore_group stage_tag top_k (r0 :: rs0)) as [|row rest] eqn:E.
  - exfalso. cbn [length] in Hlen. unfold slice_count in Hlen.
    destruct (0 <=? top_k) eqn:Ez; [lia | apply Z.leb_gt in Ez; lia].
  - exists row.
    assert (Hrow : In row (rows_of_input (input_id src)
                                         (rescore_rows stage_tag top_k rows)))
      by (rewrite Hsel; now left).
    apply filter_In in Hrow. destruct Hrow as [Hout Hid].
    apply String.eqb_eq in Hid.
    split; [exact Hout|]. split; [exact Hid|].
    cbn [map length rank_range seq] in Hranks. now injection Hranks.
Qed.

(** X16. The docking and MM/GBSA stages only narrow what they read: every
    row they write takes its input id, partner id and partner type from a
    source row; every input that has a source row keeps a row of rank 1 (no
    input is lost, the top-k being clamped to at least 1); they write at
    most as many rows as they read; and without a source file they raise
    [FileNotFoundError] instead of writing anything. *)
Theorem later_stage_funnel (config : Config) (source_rows : list Row) :
  let funnel (run : Config -> option (list Row) -> result (list Row)) :=
    (exists out,
        run config (Some source_rows) = Ok out
        /\ (forall row, In row out ->
              exists src,
                In src source_rows
                /\ input_id row = input_id src
                /\ partner_id row = partner_id src
                /\ partner_type row = partner_type src)
        /\ (forall src, In src source_rows ->
              exists row, In row out /\ input_id row = input_id src /\ rank row = 1)
        /\ (length out <= length source_rows)%nat)
    /\ exists msg, run config None = Raise (FileNotFoundError msg) in
  funnel run_docking /\ funnel run_mmgbsa.
Proof.
  cbv zeta. split; (split; [| eexists; reflexivity]).
  - eexists. split; [reflexivity|]. split; [|split].
    + intros row. apply rescore_rows_source.
    + intros src. apply rescore_rows_keeps_input. lia.
    + apply rescore_rows_length.
  - eexists. split; [reflexivity|]. split; [|split].
    + intros row. apply rescore_rows_source.
    + intros src. apply rescore_rows_keeps_input. lia.
    + apply rescore_rows_length.
Qed.

(* ------------------------------------------------------------------ *)
(** ** pipeline/aggregate.py *)

Lemma lookup2_setdefault {V : Type} (d : dict (dict V)) (k k2 : string) (v : V)
    (i p : string) :
  lookup2 (setdefault_set d k k2 v) i p
  = if String.eqb k i && String.eqb k2 p then Some v else lookup2 d i p.
Proof.
  unfold lookup2, setdefault_set. rewrite dict_get_set.
  destruct (String.eqb k i) eqn:E; cbn [andb]; [| reflexivity].
  apply String.eqb_eq in E. subst k. rewrite dict_get_set.
  unfold dict_get_default.
  destruct (String.eqb k2 p); [reflexivity|].
  now destruct (dict_get d i).
Qed.

Lemma _load_stage_fold (i p : string) (rows : list Row) :
  forall snap : StageSnapshot,
    let loaded :=
      fold_left
        (fun snap row =>
           mkSnapshot
             (setdefault_set (scores snap) (input_id row) (partner_id row) (score row))
             (setdefault_set (partner_types snap) (input_id row) (partner_id row)
                             (partner_type row)))
        rows snap in
    lookup2 (scores loaded) i p
    = match last_row i p rows with
      | Some row => Some (score row)
      | None => lookup2 (scores snap) i p
      end
    /\ lookup2 (partner_types loaded) i p
       = match last_row i p rows with
         | Some row => Some (partner_type row)
         | None => lookup2 (partner_types snap) i p
         end.
Proof.
  induction rows as [|row rest IH]; intros snap; cbn [fold_left last_row].
  - now split.
  - match goal with
    | |- context [fold_left _ rest ?s] => destruct (IH s) as [H1 H2]
    end.
    cbv zeta in *. rewrite H1, H2. cbn [scores partner_types].
    rewrite !lookup2_setdefault.
    destruct (last_row i p rest); [now split|].
    now destruct (String.eqb (input_id row) i && String.eqb (partner_id row) p).
Qed.

Lemma last_row_Some (i p : string) (rows : list Row) (row : Row) :
  last_row i p rows = Some row ->
  In row rows /\ input_id row = i /\ partner_id row = p.
Proof.
  induction rows as [|r rest IH]; cbn [last_row]; [discriminate|].
  destruct (last_row i p rest) as [later|].
  - intros [= <-]. destruct (IH eq_refl) as (H1 & H2 & H3).
    repeat split; auto. now right.
  - destruct (String.eqb (input_id r) i && String.eqb (partner_id r) p) eqn:E;
      [| discriminate].
    intros [= <-]. apply andb_true_iff in E. destruct E as [E1 E2].
    apply String.eqb_eq in E1, E2. repeat split; auto. now left.
Qed.

Lemma last_row_None (i p : string) (rows : list Row) :
  last_row i p rows = None ->
  forall row, In row rows -> ~ (input_id row = i /\ partner_id row = p).
Proof.
  induction rows as [|r rest IH]; cbn [last_row In]; [tauto|].
  destruct (last_row i p rest) as [later|]; [discriminate|].
  destruct (String.eqb (input_id r) i && String.eqb (partner_id r) p) eqn:E;
    [discriminate|].
  intros _ row [<- | Hin] [H1 H2].
  - apply andb_false_iff in E.
    destruct E as [E | E]; apply String.eqb_neq in E; congruence.
  - now apply (IH eq_refl row Hin).
Qed.

(** X17. [_load_stage] keeps, for every (input, partner) pair, the score
    and the partner type of the last row of the file for that pair, and
    nothing for a pair without a row; so the two mappings of a snapshot
    always have the same keys, and the aggregator's lookup
    [stage.partner_types[input_id][partner_id]] for a scored pair cannot
    miss. *)
Theorem _load_stage_last_row_wins (rows : list Row) (i p : string) :
  lookup2 (scores (_load_stage rows)) i p = option_map score (last_row i p rows)
  /\ lookup2 (partner_types (_load_stage rows)) i p
     = option_map partner_type (last_row i p rows)
  /\ (lookup2 (scores (_load_stage rows)) i p = None <->
      lookup2 (partner_types (_load_stage rows)) i p = None)
  /\ (lookup2 (scores (_load_stage rows)) i p = None <->
      forall row, In row rows -> ~ (input_id row = i /\ partner_id row = p)).
Proof.
  destruct (_load_stage_fold i p rows (mkSnapshot [] [])) as [H1 H2].
  cbv zeta in H1, H2. fold (_load_stage rows) in H1, H2.
  rewrite H1, H2.
  destruct (last_row i p rows) as [row|] eqn:E; cbn [option_map scores partner_types].
  - repeat split; try discriminate.
    intros H. apply last_row_Some in E. destruct E as (Hin & Hi & Hp).
    exfalso. now apply (H row Hin).
  - repeat split; auto. intros _. now apply last_row_None.
Qed.

Lemma run_aggregate_ok_inv (config : Config)
    (dti_file docking_file mmgbsa_file : option (list Row)) (final : Snapshot) :
  run_aggregate config dti_file docking_file mmgbsa_file = Ok final ->
  exists dti_rows docking_rows mmgbsa_rows,
    dti_file = Some dti_rows /\ docking_file = Some docking_rows
    /\ mmgbsa_file = Some mmgbsa_rows
    /\ aggregate_inputs (stage_data_of dti_rows docking_rows mmgbsa_rows)
         (configured_weights config) (consensus_constant (pipeline config))
         (aggregate_input_ids (stage_data_of dti_rows docking_rows mmgbsa_rows))
       = Ok (inputs final)
    /\ global_ranking final
       = map (fun '(index, (input_id, partner_id, score)) =>
                mkGlobal input_id partner_id score index)
             (enumerate
                (sort_desc (fun '(_, _, score) => score)
                           (global_entries_of (inputs final))) 1).
Proof.
  unfold run_aggregate.
  destruct dti_file as [d|]; [| discriminate].
  destruct docking_file as [k|]; [| discriminate].
  destruct mmgbsa_file as [m|]; [| discriminate].
  fold (stage_data_of d k m). fold (configured_weights config).
  fold (aggregate_input_ids (stage_data_of d k m)).
  destruct (aggregate_inputs _ _ _ _) as [per_input|e] eqn:E; cbn [bind];
    [| discriminate].
  intros [= <-]. exists d, k, m. cbn [inputs global_ranking].
  repeat split; try reflexivity. exact E.
Qed.

Lemma aggregate_input_ok_inv (stage_data : dict StageSnapshot) (weights : list Q)
    (constant : Z) (i : string) (partners : list ConsensusEntry) :
  aggregate_input stage_data weights constant i = Ok (Some partners) ->
  exists lists normalized fused,
    fusion_arguments stage_data weights i = Some (lists, normalized)
    /\ weighted_reciprocal_rank_fusion lists normalized constant = Ok fused
    /\ map entry_rank partners = rank_range (length partners)
    /\ map entry_partner_id partners = keys fused
    /\ map consensus_score partners = map snd fused.
Proof.
  unfold aggregate_input.
  destruct (fusion_arguments stage_data weights i) as [[lists normalized]|];
    [| discriminate].
  destruct (weighted_reciprocal_rank_fusion lists normalized constant)
    as [fused|e] eqn:E; cbn [bind]; [| discriminate].
  intros [= <-]. exists lists, normalized, fused.
  split; [reflexivity|]. split; [exact E|].
  rewrite length_map, enumerate_length, !map_map.
  split; [|split].
  - rewrite <- enumerate_ranks, <- (map_ext fst); [reflexivity|].
    now intros [r [p s]].
  - unfold keys. rewrite <- (enumerate_snd fused 1) at 2. rewrite map_map.
    apply map_ext. now intros [r [p s]].
  - rewrite <- (enumerate_snd fused 1) at 2. rewrite map_map.
    apply map_ext. now intros [r [p s]].
Qed.

Lemma aggregate_inputs_spec (stage_data : dict StageSnapshot) (weights : list Q)
    (constant : Z) :
  forall (ids : list string) (per_input : list (string * list ConsensusEntry)),
    aggregate_inputs stage_data weights constant ids = Ok per_input ->
    Forall (fun e => aggregate_input stage_data weights constant (fst e)
                     = Ok (Some (snd e))) per_input
    /\ map fst per_input
       = filter (fun i => match fusion_arguments stage_data weights i with
                          | Some _ => true
                          | None => false
                          end) ids.
Proof.
  induction ids as [|i rest IH]; intros per_input; cbn [aggregate_inputs filter].
  - intros [= <-]. split; [constructor | reflexivity].
  - destruct (aggregate_input stage_data weights constant i) as [partners|e] eqn:E;
      cbn [bind]; [| discriminate].
    destruct (aggregate_inputs stage_data weights constant rest) as [tail|e] eqn:Et;
      cbn [bind]; [| discriminate].
    destruct (IH tail eq_refl) as [Hall Hfst].
    intros [= <-].
    assert (Hfa : match fusion_arguments stage_data weights i with
                  | Some _ => true | None => false end
                  = match partners with Some _ => true | None => false end).
    { unfold aggregate_input in E.
      destruct (fusion_arguments stage_data weights i) as [[lists ws]|].
      - destruct (weighted_reciprocal_rank_fusion lists ws constant);
          cbn [bind] in E; [| discriminate]. now injection E as <-.
      - now injection E as <-. }
    rewrite Hfa. destruct partners as [ps|].
    + split; [constructor; [exact E | exact Hall]|]. cbn [map fst]. now rewrite Hfst.
    + now split.
Qed.





Lemma Forall_dict_set_value {V : Type} (pr : V -> Prop) (d : dict V) k v :
  Forall (fun kv => pr (snd kv)) d -> pr v ->
  Forall (fun kv => pr (snd kv)) (dict_set d k v).
Proof.
  intros Hd Hv. induction Hd as [|[k0 v0] r H0 Hr IH]; cbn [dict_set].
  - now repeat constructor.
  - destruct (String.eqb k0 k); constructor; auto.
Qed.

Lemma dict_set_not_nil {V : Type} (d : dict V) k v : dict_set d k v <> [].
Proof.
  destruct d as [|[k0 v0] r]; cbn [dict_set]; [discriminate|].
  destruct (String.eqb k0 k); discriminate.
Qed.

Lemma _load_stage_keys (i : string) (rows : list Row) :
  forall snap : StageSnapshot,
    let loaded :=
      fold_left
        (fun snap row =>
           mkSnapshot
             (setdefault_set (scores snap) (input_id row) (partner_id row) (score row))
             (setdefault_set (partner_types snap) (input_id row) (partner_id row)
                             (partner_type row)))
        rows snap in
    (In i (keys (scores loaded)) <->
     In i (keys (scores snap)) \/ exists row, In row rows /\ input_id row = i)
    /\ (Forall (fun kv => snd kv <> []) (scores snap) ->
        Forall (fun kv => snd kv <> []) (scores loaded)).
Proof.
  induction rows as [|row rest IH]; intros snap; cbn [fold_left].
  - cbv zeta. cbn [In]. split; [| tauto].
    split; [tauto | intros [H | (r & [] & _)]; exact H].
  - match goal with
    | |- context [fold_left _ rest ?s] => destruct (IH s) as [Hk Hne]
    end.
    cbv zeta in *. cbn [scores] in Hk, Hne. split.
    + rewrite Hk. unfold setdefault_set. rewrite keys_dict_set. cbn [In]. split.
      * intros [[H | ->] | (r & Hr & Hi)]; [now left | | right; eauto].
        right. exists row. auto.
      * intros [H | (r & [<- | Hr] & Hi)]; [now left; left | | right; eauto].
        left. right. now symmetry.
    + intros H. apply Hne. unfold setdefault_set.
      apply (Forall_dict_set_value (fun inner => inner <> [])); [exact H|].
      apply dict_set_not_nil.
Qed.

(** A loaded stage holds scores for an input exactly when its file has a
    row of that input. *)
Lemma _load_stage_has_input (rows : list Row) (i : string) :
  match dict_get (scores (_load_stage rows)) i with
  | Some (_ :: _) => true
  | _ => false
  end = true
  <-> exists row, In row rows /\ input_id row = i.
Proof.
  destruct (_load_stage_keys i rows (mkSnapshot [] [])) as [Hk Hne].
  cbv zeta in Hk, Hne. fold (_load_stage rows) in Hk, Hne.
  cbn [scores keys map In] in Hk.
  specialize (Hne (Forall_nil _)).
  destruct (dict_get (scores (_load_stage rows)) i) as [inner|] eqn:E.
  - assert (Hin : In i (keys (scores (_load_stage rows)))).
    { apply dict_get_Some_In in E. change i with (fst (i, inner)). now apply in_map. }
    apply dict_get_Some_In in E. rewrite Forall_forall in Hne.
    specialize (Hne _ E). cbn [snd] in Hne.
    destruct inner; [congruence|].
    split; [intros _ | reflexivity].
    apply Hk in Hin. destruct Hin as [[] | H]. exact H.
  - split; [discriminate|]. intros H.
    apply dict_get_None in E. exfalso. apply E, Hk. now right.
Qed.

Lemma compare_lt_trans (a b c : string) :
  String.compare a b = Lt -> String.compare b c = Lt -> String.compare a c = Lt.
Proof.
  intros H1 H2.
  apply OrderedTypeEx.String_as_OT.cmp_lt in H1, H2.
  apply OrderedTypeEx.String_as_OT.cmp_lt.
  eapply OrderedTypeEx.String_as_OT.lt_trans; eassumption.
Qed.

Lemma insert_str_In (x : string) (l : list string) (y : string) :
  In y (insert_str x l) <-> y = x \/ In y l.
Proof.
  induction l as [|z r IH]; cbn [insert_str In]; [intuition|].
  destruct (String.compare x z) eqn:E; cbn [In].
  - apply String.compare_eq_iff in E. subst z. intuition.
  - intuition.
  - rewrite IH. intuition.
Qed.

Lemma insert_str_ascending (x : string) (l : list string) :
  ascending l -> ascending (insert_str x l).
Proof.
  unfold ascending. induction 1 as [|z r Hr IH Hall]; cbn [insert_str].
  - repeat constructor.
  - destruct (String.compare x z) eqn:E.
    + now constructor.
    + constructor; [now constructor|].
      constructor; [exact E|].
      eapply Forall_impl; [| exact Hall]. cbv beta. intros c Hc.
      now apply (compare_lt_trans x z c).
    + constructor; [exact IH|].
      apply Forall_forall. intros c Hc. apply insert_str_In in Hc.
      destruct Hc as [-> | Hc].
      * rewrite String.compare_antisym, E. reflexivity.
      * rewrite Forall_forall in Hall. now apply Hall.
Qed.

Lemma sorted_set_spec (l : list string) :
  ascending (sorted_set l) /\ forall x, In x (sorted_set l) <-> In x l.
Proof.
  induction l as [|y r [IHa IHi]]; cbn [sorted_set fold_right].
  - split; [constructor | tauto].
  - fold (sorted_set r). split; [now apply insert_str_ascending|].
    intros x. rewrite insert_str_In, IHi. cbn [In]. intuition.
Qed.

Lemma aggregate_input_ids_spec (d k m : list Row) :
  ascending (aggregate_input_ids (stage_data_of d k m))
  /\ forall i,
       In i (aggregate_input_ids (stage_data_of d k m)) <->
       exists row, In row (d ++ k ++ m) /\ input_id row = i.
Proof.
  unfold aggregate_input_ids.
  destruct (sorted_set_spec
              (flat_map (fun '(_, data) => keys (scores data)) (stage_data_of d k m)))
    as [Ha Hi].
  split; [exact Ha|]. intros i. rewrite Hi.
  cbn [stage_data_of flat_map]. rewrite app_nil_r, !in_app_iff.
  pose proof (fun rows => proj1 (_load_stage_keys i rows (mkSnapshot [] []))) as Hk.
  cbv zeta in Hk. cbn [scores keys map In] in Hk.
  rewrite (Hk d), (Hk k), (Hk m).
  split.
  - intros [[[] | (r & Hr & <-)] | [[[] | (r & Hr & <-)] | [[] | (r & Hr & <-)]]];
      exists r; rewrite !in_app_iff; auto.
  - intros (r & Hr & <-). rewrite !in_app_iff in Hr.
    destruct Hr as [Hr | [Hr | Hr]]; [left | right; left | right; right];
      right; eauto.
Qed.

(** The fusion has arguments for an input exactly when some stage file
    has a row of it, and then as many weights as rank lists. *)
Lemma fusion_arguments_some_iff (d k m : list Row) (w1 w2 w3 : Q) (i : string) :
  (fusion_arguments (stage_data_of d k m) [w1; w2; w3] i = None <->
   ~ exists row, In row (d ++ k ++ m) /\ input_id row = i)
  /\ forall lists normalized,
       fusion_arguments (stage_data_of d k m) [w1; w2; w3] i
       = Some (lists, normalized) ->
       length lists = length normalized.
Proof.
  pose proof (collect_stages_fold (stage_data_of d k m) i
                (zip stage_names [w1; w2; w3]) (mkCollected [] [] [] [])) as Hc.
  cbv zeta in Hc. cbn [rank_lists stage_weights_kept app] in Hc.
  destruct Hc as [Hlists Hkept].
  fold (collect_stages (stage_data_of d k m) stage_names [w1; w2; w3] i)
    in Hlists, Hkept.
  unfold fusion_arguments. rewrite Hlists, Hkept.
  assert (Hpres : forall name rows w,
             dict_get_default (stage_data_of d k m) name (mkSnapshot [] [])
             = _load_stage rows ->
             stage_present (stage_data_of d k m) i (name, w) = true
             <-> exists row, In row rows /\ input_id row = i).
  { intros name rows w Hname. unfold stage_present, stage_scores. cbn [fst].
    rewrite Hname. apply _load_stage_has_input. }
  pose proof (Hpres "dti" d w1 eq_refl) as H1.
  pose proof (Hpres "docking" k w2 eq_refl) as H2.
  pose proof (Hpres "mmgbsa" m w3 eq_refl) as H3.
  split.
  - cbn [stage_names zip combine filter].
    destruct (stage_present _ i ("dti", w1)) eqn:E1;
      destruct (stage_present _ i ("docking", w2)) eqn:E2;
      destruct (stage_present _ i ("mmgbsa", w3)) eqn:E3;
      cbn [map];
      (split;
       [ intros Hnone; try discriminate
       | intros Hno ]);
      try (exfalso; apply Hno;
           first [ destruct (proj1 H1 eq_refl) as (r & Hr & Hi)
                 | destruct (proj1 H2 eq_refl) as (r & Hr & Hi)
                 | destruct (proj1 H3 eq_refl) as (r & Hr & Hi) ];
           exists r; rewrite !in_app_iff; now auto).
    + intros (r & Hr & Hi). rewrite !in_app_iff in Hr.
      destruct Hr as [Hr | [Hr | Hr]];
        [ assert (false = true) by (apply H1; eauto)
        | assert (false = true) by (apply H2; eauto)
        | assert (false = true) by (apply H3; eauto) ]; discriminate.
    + reflexivity.
  - intros lists normalized.
    destruct (filter (stage_present (stage_data_of d k m) i)
                     (zip stage_names [w1; w2; w3])) as [|p kept];
      cbn [map]; [discriminate|].
    intros [= <- <-]. cbn [length]. rewrite !length_map.
    unfold normalize_weights.
    destruct (negb _); cbn [map length]; now rewrite ?length_map.
Qed.


Lemma filter_all_true {A : Type} (f : A -> bool) (l : list A) :
  (forall x, In x l -> f x = true) -> filter f l = l.
Proof.
  induction l as [|x r IH]; intros H; cbn [filter]; [reflexivity|].
  rewrite (H x (or_introl eq_refl)), IH; [reflexivity|].
  intros y Hy. apply H. now right.
Qed.

(** X19. The inputs of the snapshot [run_aggregate] returns are exactly
    the input ids that occur in at least one of the three stage files, each
    once, in ascending order: an input that a stage lacks is still
    reported, from the stages that have it. *)
Theorem run_aggregate_inputs (config : Config)
    (dti_rows docking_rows mmgbsa_rows : list Row) (final : Snapshot) :
  run_aggregate config (Some dti_rows) (Some docking_rows) (Some mmgbsa_rows)
  = Ok final ->
  ascending (map fst (inputs final))
  /\ forall i,
       In i (map fst (inputs final)) <->
       exists row,
         In row (dti_rows ++ docking_rows ++ mmgbsa_rows) /\ input_id row = i.
Proof.
  intros H. apply run_aggregate_ok_inv in H.
  destruct H as (d & k & m & [= ->] & [= ->] & [= ->] & Hin & _).
  apply aggregate_inputs_spec in Hin. destruct Hin as [_ Hfst].
  destruct (aggregate_input_ids_spec d k m) as [Hasc Hmem].
  rewrite filter_all_true in Hfst.
  - rewrite Hfst. now split.
  - intros i Hi. apply Hmem in Hi.
    destruct (fusion_arguments_some_iff d k m
                (w_dti (stage_weights (pipeline config)))
                (w_docking (stage_weights (pipeline config)))
                (w_mmgbsa (stage_weights (pipeline config))) i) as [Hnone _].
    fold (configured_weights config) in Hnone.
    destruct (fusion_arguments (stage_data_of d k m) (configured_weights config) i);
      [reflexivity|].
    exfalso. now apply (proj1 Hnone).
Qed.

Lemma run_aggregate_inputs_witness :
  ascending (map fst (inputs sample_final))
  /\ forall i,
       In i (map fst (inputs sample_final)) <->
       exists row,
         In row (sample_dti_rows ++ sample_docking_rows ++ sample_mmgbsa_rows)
         /\ input_id row = i.
Proof.
  apply (run_aggregate_inputs example_config sample_dti_rows sample_docking_rows
           sample_mmgbsa_rows sample_final).
  vm_compute. reflexivity.
Defined.





(* ------------------------------------------------------------------ *)
(** ** config.py *)



Lemma _write_nested_ok (path : list string) (value : ConfigValue) :
  path <> [] ->
  forall config, exists config', _write_nested config path value = Ok config'.
Proof.
  induction path as [|key rest IH]; intros Hne config; [congruence|].
  cbn [_write_nested]. destruct rest as [|k2 rest']; [eexists; reflexivity|].
  match goal with
  | |- context [_write_nested ?c (k2 :: rest') value] =>
      destruct (IH ltac:(discriminate) c) as [sub Hsub]; rewrite Hsub
  end.
  cbn [bind]. eexists. reflexivity.
Qed.

(** X22. [_write_nested] with a non-empty path always succeeds; reading
    the written mapping along the path gives the written value; reading it
    along any path that parts from the written one gives what the mapping
    held there before; an empty path raises. *)
Theorem _write_nested_read_back (path : list string) (value : ConfigValue) :
  (forall config, exists e, _write_nested config [] value = Raise e)
  /\ (path <> [] ->
      forall config,
        exists config',
          _write_nested config path value = Ok config'
          /\ read_nested config' path = Some value
          /\ forall other,
               diverge path other = true ->
               read_nested config' other = read_nested config other).
Proof.
  split; [intros config; eexists; reflexivity|].
  induction path as [|key rest IH]; intros Hne config; [congruence|].
  cbn [_write_nested read_nested].
  destruct rest as [|k2 rest'].
  - eexists. split; [reflexivity|]. split.
    + rewrite dict_get_set. now rewrite String.eqb_refl.
    + intros [|b other'] Hd; cbn [diverge] in Hd; [discriminate|].
      destruct (String.eqb key b) eqn:E; [destruct other'; discriminate|].
      cbn [read_nested]. rewrite dict_get_set, E. reflexivity.
  - match goal with
    | |- context [_write_nested ?c (k2 :: rest') value] =>
        destruct (IH ltac:(discriminate) c) as (sub & Hsub & Hread & Hframe);
          rewrite Hsub
    end.
    cbn [bind]. eexists. split; [reflexivity|]. split.
    + rewrite dict_get_set, String.eqb_refl. exact Hread.
    + intros [|b other'] Hd; cbn [diverge] in Hd; [discriminate|].
      cbn [read_nested]. rewrite dict_get_set.
      destruct (String.eqb key b) eqn:E; [| reflexivity].
      apply String.eqb_eq in E. subst b.
      destruct other' as [|o2 other'']; [destruct k2; discriminate|].
      rewrite (Hframe (o2 :: other'') Hd).
      destruct (dict_get config key) as [[p | items | entries]|];
        try reflexivity;
        cbn [read_nested dict_get]; now destruct other''.
Qed.

Lemma _write_nested_read_back_witness :
  exists config',
    _write_nested sample_mapping ["pipeline"; "chunk_size"] (Primitive (PInt 8))
    = Ok config'
    /\ read_nested config' ["pipeline"; "chunk_size"] = Some (Primitive (PInt 8))
    /\ forall other,
         diverge ["pipeline"; "chunk_size"] other = true ->
         read_nested config' other = read_nested sample_mapping other.
Proof.
  apply (proj2 (_write_nested_read_back ["pipeline"; "chunk_size"]
                  (Primitive (PInt 8)))).
  discriminate.
Defined.

(* ------------------------------------------------------------------ *)
(** ** pipeline/data.py: the inputs file *)

Lemma valid_input_row_iff (row : dict string) :
  valid_input_row row = true <->
  exists identifier entry_type value,
    dict_get row "id" = Some identifier /\ identifier <> ""
    /\ dict_get row "type" = Some entry_type
    /\ (entry_type = "protein" \/ entry_type = "ligand")
    /\ dict_get row "value" = Some value /\ value <> "".
Proof.
  unfold valid_input_row, dict_get_default, falsy, parse_type. split.
  - intros H.
    destruct (dict_get row "id") as [i|]; [|discriminate].
    destruct (dict_get row "type") as [t|];
      [|destruct (String.eqb i ""); discriminate].
    destruct (dict_get row "value") as [v|];
      [|destruct (String.eqb i ""), (String.eqb t ""); discriminate].
    destruct (String.eqb i "") eqn:Ei; [discriminate|].
    destruct (String.eqb t "") eqn:Et; [discriminate|].
    destruct (String.eqb v "") eqn:Ev; [discriminate|].
    apply String.eqb_neq in Ei, Ev.
    exists i, t, v. repeat split; try assumption.
    destruct (String.eqb t "protein") eqn:Ep;
      [apply String.eqb_eq in Ep; now left|].
    destruct (String.eqb t "ligand") eqn:El;
      [apply String.eqb_eq in El; now right|].
    discriminate.
  - intros (i & t & v & -> & Hi & -> & Ht & -> & Hv).
    apply String.eqb_neq in Hi, Hv. rewrite Hi, Hv.
    destruct Ht as [-> | ->]; reflexivity.
Qed.

Lemma load_rows_spec (csv_rows : list (dict string)) :
  match load_rows csv_rows with
  | Ok records =>
      forallb valid_input_row csv_rows = true
      /\ map input_rec_id records
         = map (fun row => dict_get_default row "id" "") csv_rows
      /\ map (fun r => Some (input_rec_type r)) records
         = map (fun row => parse_type (dict_get_default row "type" "")) csv_rows
      /\ map input_rec_value records
         = map (fun row => dict_get_default row "value" "") csv_rows
  | Raise e =>
      forallb valid_input_row csv_rows = false /\ exists msg, e = ValueError msg
  end.
Proof.
  induction csv_rows as [|row rest IH]; [cbn; repeat split|].
  cbn [load_rows forallb map].
  assert (Hrow : valid_input_row row
                 = negb (falsy (dict_get row "id") || falsy (dict_get row "type")
                         || falsy (dict_get row "value"))
                   && match parse_type (dict_get_default row "type" "") with
                      | Some _ => true
                      | None => false
                      end) by reflexivity.
  rewrite Hrow. clear Hrow.
  destruct (falsy (dict_get row "id") || falsy (dict_get row "type")
            || falsy (dict_get row "value")) eqn:E.
  - cbn [negb andb]. split; [reflexivity | eexists; reflexivity].
  - cbn [negb andb].
    destruct (parse_type (dict_get_default row "type" "")) as [t|] eqn:Et.
    + destruct (load_rows rest) as [records | e]; cbn [bind].
      * destruct IH as (Hv & Hi & Ht & Hval). cbn [map input_rec_id input_rec_type input_rec_value].
        rewrite Hi, Ht, Hval. repeat split; assumption.
      * destruct IH as [Hv Hmsg]. split; assumption.
    + split; [reflexivity | eexists; reflexivity].
Qed.

(** X23. [load_input_records] returns records exactly when the file has
    at least one row and every row has a non-empty id, a non-empty value
    and the type protein or ligand; the records are then the rows in file
    order, one per row. In every other case it raises [ValueError], also
    when the bad row is the last one: no partial list is returned. *)
Theorem load_input_records_all_or_nothing (csv_rows : list (dict string)) :
  match load_input_records_csv csv_rows with
  | Ok records =>
      csv_rows <> []
      /\ Forall (fun row =>
           exists identifier entry_type value,
             dict_get row "id" = Some identifier /\ identifier <> ""
             /\ dict_get row "type" = Some entry_type
             /\ (entry_type = "protein" \/ entry_type = "ligand")
             /\ dict_get row "value" = Some value /\ value <> "") csv_rows
      /\ length records = length csv_rows
      /\ map (fun r => Some (input_rec_id r)) records
         = map (fun row => dict_get row "id") csv_rows
      /\ map (fun r => Some (input_rec_type r)) records
         = map (fun row => parse_type (dict_get_default row "type" "")) csv_rows
      /\ map (fun r => Some (input_rec_value r)) records
         = map (fun row => dict_get row "value") csv_rows
      /\ load_input_records records = Ok records
  | Raise e =>
      (exists msg, e = ValueError msg)
      /\ (csv_rows = []
          \/ Exists (fun row => valid_input_row row = false) csv_rows)
  end.
Proof.
  unfold load_input_records_csv.
  pose proof (load_rows_spec csv_rows) as H.
  destruct (load_rows csv_rows) as [records | e]; cbn [bind].
  - destruct H as (Hv & Hi & Ht & Hval).
    assert (Hall : Forall (fun row => valid_input_row row = true) csv_rows)
      by (apply Forall_forall; intros row Hin;
          exact (proj1 (forallb_forall _ _) Hv row Hin)).
    assert (Hlen : length records = length csv_rows)
      by (rewrite <- (length_map input_rec_id), Hi; apply length_map).
    destruct records as [|r records].
    + split; [eexists; reflexivity|]. left.
      destruct csv_rows; [reflexivity | discriminate].
    + split; [destruct csv_rows; discriminate|].
      split; [eapply Forall_impl; [|exact Hall]; intros row Hr;
              now apply valid_input_row_iff|].
      split; [exact Hlen|].
      split.
      { rewrite <- (map_map input_rec_id Some), Hi, map_map.
        apply map_ext_in. intros row Hin.
        rewrite Forall_forall in Hall.
        apply Hall, valid_input_row_iff in Hin.
        destruct Hin as (i & t & v & Hgi & _). unfold dict_get_default.
        now rewrite Hgi. }
      split; [exact Ht|].
      split; [|reflexivity].
      rewrite <- (map_map input_rec_value Some), Hval, map_map.
      apply map_ext_in. intros row Hin.
      rewrite Forall_forall in Hall.
      apply Hall, valid_input_row_iff in Hin.
      destruct Hin as (i & t & v & _ & _ & _ & _ & Hgv & _).
      unfold dict_get_default. now rewrite Hgv.
  - destruct H as [Hv Hmsg]. split; [exact Hmsg|]. right.
    clear Hmsg. induction csv_rows as [|row rest IH]; [discriminate|].
    cbn [forallb] in Hv. apply andb_false_iff in Hv.
    destruct Hv as [Hv | Hv]; [now left | right; now apply IH].
Qed.

(* ------------------------------------------------------------------ *)
(** ** pipeline/aggregate.py: the entries of an input *)

Lemma collect_stages_steps (stage_data : dict StageSnapshot) (w1 w2 w3 : Q)
    (i : string) :
  collect_stages stage_data stage_names [w1; w2; w3] i
  = collect_step stage_data i
      (collect_step stage_data i
         (collect_step stage_data i (mkCollected [] [] [] []) ("dti", w1))
         ("docking", w2))
      ("mmgbsa", w3).
Proof. reflexivity. Qed.

Lemma collect_step_scores (stage_data : dict StageSnapshot) (i : string)
    (acc : Collected) (name : string) (w : Q) (name' p : string) :
  (forall sc, stage_scores stage_data name i = Some sc -> NoDup (keys sc)) ->
  dict_get (dict_get_default
              (per_stage_scores (collect_step stage_data i acc (name, w))) name' []) p
  = match stage_scores stage_data name i with
    | Some (x :: l) =>
        if String.eqb name name' then dict_get (x :: l) p
        else dict_get (dict_get_default (per_stage_scores acc) name' []) p
    | _ => dict_get (dict_get_default (per_stage_scores acc) name' []) p
    end.
Proof.
  intros Hnd. unfold collect_step, stage_scores in *.
  destruct (dict_get (scores (dict_get_default stage_data name (mkSnapshot [] []))) i)
    as [[|x l]|] eqn:E; try reflexivity.
  cbn [per_stage_scores]. rewrite dict_get_default_set.
  destruct (String.eqb name name'); [|reflexivity].
  symmetry. apply dict_get_permutation; [now apply Hnd|].
  symmetry. apply sort_desc_perm.
Qed.

Lemma fold_set_get {V : Type} (f : string -> V) (ks : list string) :
  forall (init : dict V) (p : string),
    dict_get (fold_left (fun types k => dict_set types k (f k)) ks init) p
    = if existsb (String.eqb p) ks then Some (f p) else dict_get init p.
Proof.
  induction ks as [|a ks IH]; intros init p; [reflexivity|].
  cbn [fold_left existsb]. rewrite IH, dict_get_set.
  destruct (existsb (String.eqb p) ks); [now rewrite orb_true_r|].
  rewrite orb_false_r, (String.eqb_sym p a).
  destruct (String.eqb a p) eqn:E; [|reflexivity].
  apply String.eqb_eq in E. now subst.
Qed.

Lemma existsb_keys {V : Type} (d : dict V) (p : string) :
  existsb (String.eqb p) (keys d)
  = match dict_get d p with Some _ => true | None => false end.
Proof.
  induction d as [|[k v] d IH]; [reflexivity|].
  cbn [keys map existsb dict_get fst]. rewrite (String.eqb_sym p k).
  destruct (String.eqb k p); [reflexivity|]. exact IH.
Qed.

Lemma collect_step_types (stage_data : dict StageSnapshot) (i : string)
    (acc : Collected) (name : string) (w : Q) (p : string) :
  let stage := dict_get_default stage_data name (mkSnapshot [] []) in
  dict_get (partner_types_seen (collect_step stage_data i acc (name, w))) p
  = match lookup2 (scores stage) i p with
    | Some _ =>
        Some (match lookup2 (partner_types stage) i p with
              | Some t => t
              | None => "unknown"
              end)
    | None => dict_get (partner_types_seen acc) p
    end.
Proof.
  cbv zeta. unfold collect_step, lookup2. cbv zeta.
  generalize (dict_get_default stage_data name (mkSnapshot [] [])).
  intros stage.
  destruct (dict_get (scores stage) i) as [[|x l]|] eqn:E; try reflexivity.
  cbn [partner_types_seen]. rewrite fold_set_get, existsb_keys.
  destruct (dict_get (x :: l) p); [|reflexivity].
  unfold dict_get_default.
  now destruct (dict_get (partner_types stage) i).
Qed.

Lemma _load_stage_inner_NoDup (rows : list Row) :
  forall snap : StageSnapshot,
    Forall (fun kv => NoDup (keys (snd kv))) (scores snap) ->
    Forall (fun kv => NoDup (keys (snd kv)))
      (scores
         (fold_left
            (fun snap row =>
               mkSnapshot
                 (setdefault_set (scores snap) (input_id row) (partner_id row)
                                 (score row))
                 (setdefault_set (partner_types snap) (input_id row)
                                 (partner_id row) (partner_type row)))
            rows snap)).
Proof.
  induction rows as [|row rows IH]; intros snap H; [exact H|].
  cbn [fold_left]. apply IH. cbn [scores]. unfold setdefault_set.
  apply (Forall_dict_set_value (fun v : dict Q => NoDup (keys v))); [exact H|].
  apply NoDup_keys_dict_set. unfold dict_get_default.
  destruct (dict_get (scores snap) (input_id row)) as [inner|] eqn:E;
    [|constructor].
  apply dict_get_Some_In in E. rewrite Forall_forall in H.
  exact (H _ E).
Qed.

Lemma _load_stage_NoDup (rows : list Row) (i : string) (sc : dict Q) :
  dict_get (scores (_load_stage rows)) i = Some sc -> NoDup (keys sc).
Proof.
  intros E. apply dict_get_Some_In in E.
  pose proof (_load_stage_inner_NoDup rows (mkSnapshot [] []) (Forall_nil _)) as H.
  rewrite Forall_forall in H. exact (H _ E).
Qed.

Lemma _load_stage_lookup (rows : list Row) (i p : string) :
  lookup2 (scores (_load_stage rows)) i p = option_map score (last_row i p rows)
  /\ lookup2 (partner_types (_load_stage rows)) i p
     = option_map partner_type (last_row i p rows).
Proof.
  destruct (_load_stage_fold i p rows (mkSnapshot [] [])) as [Hs Ht].
  unfold _load_stage. rewrite Hs, Ht.
  now destruct (last_row i p rows).
Qed.

Lemma lookup2_stage_scores (rows : list Row) (i p : string) :
  match dict_get (scores (_load_stage rows)) i with
  | Some (x :: l) => dict_get (x :: l) p
  | _ => None
  end = option_map score (last_row i p rows).
Proof.
  rewrite <- (proj1 (_load_stage_lookup rows i p)). unfold lookup2.
  now destruct (dict_get (scores (_load_stage rows)) i) as [[|x l]|].
Qed.

Lemma wrrf_rank_loop_keys (weight : Q) (constant : Z) (ranking : list string) :
  forall (start : Z) (fused : dict Q) (c : string),
    In c (keys (fold_left
                  (fun (fused : dict Q) '(index, candidate) =>
                     dict_set fused candidate
                       (dict_get_default fused candidate 0
                        + weight / Z2Q (constant + index))%Q)
                  (enumerate ranking start) fused)) ->
    In c (keys fused) \/ In c ranking.
Proof.
  induction ranking as [|a ranking IH]; intros start fused c H; [now left|].
  cbn [enumerate fold_left] in H. apply IH in H.
  destruct H as [H | H]; [|right; now right].
  apply keys_dict_set in H. destruct H as [H | ->]; [now left | right; now left].
Qed.

Lemma wrrf_accumulate_keys (rank_lists : list (list string)) (weights : list Q)
    (constant : Z) (c : string) :
  In c (keys (wrrf_accumulate rank_lists weights constant)) ->
  exists ranking, In ranking rank_lists /\ In c ranking.
Proof.
  unfold wrrf_accumulate.
  assert (G : forall (pairs : list (list string * Q)) (fused : dict Q),
             In c (keys (fold_left
                           (fun (fused : dict Q) '(ranking, weight) =>
                              if Qle_bool weight 0 then fused
                              else
                                fold_left
                                  (fun (fused : dict Q) '(index, candidate) =>
                                     dict_set fused candidate
                                       (dict_get_default fused candidate 0
                                        + weight / Z2Q (constant + index))%Q)
                                  (enumerate ranking 1) fused)
                           pairs fused)) ->
             In c (keys fused)
             \/ exists ranking, In ranking (map fst pairs) /\ In c ranking).
  { induction pairs as [|[ranking weight] pairs IH]; intros fused H; [now left|].
    cbn [fold_left] in H. apply IH in H.
    destruct H as [H | (r & Hr & Hc)];
      [|right; exists r; split; [now right | exact Hc]].
    destruct (Qle_bool weight 0); [now left|].
    apply wrrf_rank_loop_keys in H.
    destruct H as [H | H]; [now left|].
    right. exists ranking. split; [now left | exact H]. }
  intros H. apply G in H. destruct H as [[] | (r & Hr & Hc)].
  exists r. split; [|exact Hc].
  apply in_map_iff in Hr. destruct Hr as ([r' w] & <- & Hin).
  clear - Hin. revert weights Hin.
  induction rank_lists as [|l ls IH]; intros [|w0 ws] Hin; cbn in Hin;
    try contradiction.
  destruct Hin as [[= -> ->] | Hin]; [now left | right; eauto].
Qed.

Lemma aggregate_input_entries (stage_data : dict StageSnapshot) (weights : list Q)
    (constant : Z) (i : string) (partners : list ConsensusEntry) :
  aggregate_input stage_data weights constant i = Ok (Some partners) ->
  let c := collect_stages stage_data stage_names weights i in
  Forall (fun e =>
            entry_scores e
            = map (fun name =>
                     (name,
                      dict_get (dict_get_default (per_stage_scores c) name [])
                               (entry_partner_id e)))
                  stage_names
            /\ entry_partner_type e
               = dict_get_default (partner_types_seen c) (entry_partner_id e)
                                  "unknown")
         partners.
Proof.
  unfold aggregate_input.
  destruct (fusion_arguments stage_data weights i) as [[lists normalized]|];
    [| discriminate].
  destruct (weighted_reciprocal_rank_fusion lists normalized constant)
    as [fused|e]; cbn [bind]; [| discriminate].
  intros [= <-]. cbv zeta. apply Forall_forall. intros e He.
  apply in_map_iff in He. destruct He as ([rank [p s]] & <- & _).
  split; reflexivity.
Qed.

Lemma stage_data_of_get (d k m : list Row) :
  dict_get_default (stage_data_of d k m) "dti" (mkSnapshot [] []) = _load_stage d
  /\ dict_get_default (stage_data_of d k m) "docking" (mkSnapshot [] [])
     = _load_stage k
  /\ dict_get_default (stage_data_of d k m) "mmgbsa" (mkSnapshot [] [])
     = _load_stage m.
Proof. repeat split. Qed.

(** X24. In the snapshot of [run_aggregate], the stage scores of an entry
    of input [i] with partner [p] are, stage by stage, the score of the
    last row of the stage file for the pair, and null when the file has no
    row for the pair: a missing stage is never reported as a number. At
    least one stage has the pair, and the partner type is the one of the
    latest stage (mmgbsa, then docking, then dti) that has it. *)
Theorem run_aggregate_entry_scores (config : Config)
    (dti_rows docking_rows mmgbsa_rows : list Row) (final : Snapshot)
    (i : string) (partners : list ConsensusEntry) (e : ConsensusEntry) :
  run_aggregate config (Some dti_rows) (Some docking_rows) (Some mmgbsa_rows)
  = Ok final ->
  In (i, partners) (inputs final) ->
  In e partners ->
  let p := entry_partner_id e in
  entry_scores e
  = [("dti", option_map score (last_row i p dti_rows));
     ("docking", option_map score (last_row i p docking_rows));
     ("mmgbsa", option_map score (last_row i p mmgbsa_rows))]
  /\ (exists rows,
        In rows [dti_rows; docking_rows; mmgbsa_rows]
        /\ last_row i p rows <> None)
  /\ entry_partner_type e
     = latest_partner_type i p [mmgbsa_rows; docking_rows; dti_rows].
Proof.
  intros Hrun Hin He. cbv zeta.
  apply run_aggregate_ok_inv in Hrun.
  destruct Hrun as (d & k & m & [= <-] & [= <-] & [= <-] & Hagg & _).
  apply aggregate_inputs_spec in Hagg. destruct Hagg as [Hall _].
  rewrite Forall_forall in Hall. specialize (Hall _ Hin).
  cbn [fst snd] in Hall. unfold configured_weights in Hall.
  set (w1 := w_dti (stage_weights (pipeline config))) in *.
  set (w2 := w_docking (stage_weights (pipeline config))) in *.
  set (w3 := w_mmgbsa (stage_weights (pipeline config))) in *.
  set (sd := stage_data_of dti_rows docking_rows mmgbsa_rows) in *.
  destruct (stage_data_of_get dti_rows docking_rows mmgbsa_rows)
    as (Gd & Gk & Gm). fold sd in Gd, Gk, Gm.
  assert (Hnd : forall name sc,
             In name stage_names ->
             stage_scores sd name i = Some sc -> NoDup (keys sc)).
  { intros name sc Hname. unfold stage_scores.
    destruct Hname as [<- | [<- | [<- | []]]];
      [rewrite Gd | rewrite Gk | rewrite Gm]; apply _load_stage_NoDup. }
  pose proof (aggregate_input_entries _ _ _ _ _ Hall) as Hent.
  cbv zeta in Hent. rewrite Forall_forall in Hent.
  destruct (Hent _ He) as [Hsc Hty]. clear Hent.
  split; [|split].
  - rewrite Hsc. unfold stage_names. cbn [map].
    rewrite collect_stages_steps.
    rewrite !collect_step_scores
      by (intros sc; apply Hnd; cbn; tauto).
    unfold stage_scores. rewrite Gd, Gk, Gm.
    change (String.eqb "mmgbsa" "dti") with false.
    change (String.eqb "docking" "dti") with false.
    change (String.eqb "dti" "dti") with true.
    change (String.eqb "mmgbsa" "docking") with false.
    change (String.eqb "docking" "docking") with true.
    change (String.eqb "dti" "docking") with false.
    change (String.eqb "mmgbsa" "mmgbsa") with true.
    change (String.eqb "docking" "mmgbsa") with false.
    change (String.eqb "dti" "mmgbsa") with false.
    cbn [per_stage_scores dict_get_default dict_get].
    rewrite <- (lookup2_stage_scores dti_rows i (entry_partner_id e)).
    rewrite <- (lookup2_stage_scores docking_rows i (entry_partner_id e)).
    rewrite <- (lookup2_stage_scores mmgbsa_rows i (entry_partner_id e)).
    destruct (dict_get (scores (_load_stage dti_rows)) i) as [[|x1 l1]|];
      destruct (dict_get (scores (_load_stage docking_rows)) i) as [[|x2 l2]|];
      destruct (dict_get (scores (_load_stage mmgbsa_rows)) i) as [[|x3 l3]|];
      reflexivity.
  - destruct (aggregate_input_ok_inv _ _ _ _ _ Hall)
      as (lists & normalized & fused & Hfa & Hw & _ & Hids & _).
    apply wrrf_ok_inv in Hw. destruct Hw as (_ & _ & ->).
    assert (Hp : In (entry_partner_id e)
                    (keys (wrrf_accumulate lists normalized
                             (consensus_constant (pipeline config))))).
    { assert (Hs : In (entry_partner_id e)
                      (keys (sort_desc snd
                               (wrrf_accumulate lists normalized
                                  (consensus_constant (pipeline config))))))
        by (rewrite <- Hids; now apply in_map).
      unfold keys in *.
      eapply Permutation_in; [apply Permutation_map, sort_desc_perm | exact Hs]. }
    apply wrrf_accumulate_keys in Hp. destruct Hp as (ranking & Hr & Hc).
    unfold fusion_arguments in Hfa.
    destruct (collect_stages_fold sd i (zip stage_names [w1; w2; w3])
                (mkCollected [] [] [] [])) as [Hl _].
    cbv zeta in Hl. cbn [rank_lists app] in Hl.
    fold (collect_stages sd stage_names [w1; w2; w3] i) in Hl.
    destruct (rank_lists (collect_stages sd stage_names [w1; w2; w3] i))
      as [|l0 ls] eqn:El; [discriminate|].
    injection Hfa as <- _. rewrite Hl in Hr.
    apply in_map_iff in Hr. destruct Hr as ([name w] & <- & Hf).
    apply filter_In in Hf. destruct Hf as [Hz _]. cbn [fst] in Hc.
    assert (Hlk : forall rows,
               dict_get_default sd name (mkSnapshot [] []) = _load_stage rows ->
               last_row i (entry_partner_id e) rows <> None).
    { intros rows G. unfold ranked_partners, stage_scores in Hc. rewrite G in Hc.
      pose proof (proj1 (_load_stage_lookup rows i (entry_partner_id e))) as L.
      unfold lookup2 in L.
      destruct (dict_get (scores (_load_stage rows)) i) as [sc|] eqn:Esc;
        [|contradiction].
      assert (Hk : In (entry_partner_id e) (keys sc)).
      { unfold keys. eapply Permutation_in;
          [apply Permutation_map, sort_desc_perm | exact Hc]. }
      intros Hnone. rewrite Hnone in L. cbn in L.
      apply dict_get_None in L. contradiction. }
    cbn in Hz. destruct Hz as [[= <- _] | [[= <- _] | [[= <- _] | []]]].
    + exists dti_rows. split; [cbn; tauto | now apply Hlk].
    + exists docking_rows. split; [cbn; tauto | now apply Hlk].
    + exists mmgbsa_rows. split; [cbn; tauto | now apply Hlk].
  - rewrite Hty. unfold dict_get_default at 1.
    rewrite collect_stages_steps, !collect_step_types.
    rewrite Gd, Gk, Gm.
    rewrite !(proj1 (_load_stage_lookup _ i (entry_partner_id e))).
    rewrite !(proj2 (_load_stage_lookup _ i (entry_partner_id e))).
    cbn [latest_partner_type partner_types_seen dict_get].
    destruct (last_row i (entry_partner_id e) mmgbsa_rows);
      destruct (last_row i (entry_partner_id e) docking_rows);
      destruct (last_row i (entry_partner_id e) dti_rows); reflexivity.
Qed.

Lemma run_aggregate_entry_scores_witness :
  entry_scores sample_entry
  = [("dti", option_map score (last_row "P2" "L1" sample_dti_rows));
     ("docking", option_map score (last_row "P2" "L1" sample_docking_rows));
     ("mmgbsa", option_map score (last_row "P2" "L1" sample_mmgbsa_rows))]
  /\ (exists rows,
        In rows [sample_dti_rows; sample_docking_rows; sample_mmgbsa_rows]
        /\ last_row "P2" "L1" rows <> None)
  /\ entry_partner_type sample_entry
     = latest_partner_type "P2" "L1"
         [sample_mmgbsa_rows; sample_docking_rows; sample_dti_rows].
Proof.
  apply (run_aggregate_entry_scores example_config sample_dti_rows
           sample_docking_rows sample_mmgbsa_rows sample_final "P2"
           sample_p2_entries sample_entry).
  - vm_compute. reflexivity.
  - vm_compute. right. left. reflexivity.
  - vm_compute. left. reflexivity.
Defined.

(* ------------------------------------------------------------------ *)
(** ** The stages in sequence *)

Lemma stage_present_stage_data (d k m : list Row) (i name : string) (w : Q)
    (rows : list Row) :
  dict_get_default (stage_data_of d k m) name (mkSnapshot [] []) = _load_stage rows ->
  (exists row, In row rows /\ input_id row = i) ->
  stage_present (stage_data_of d k m) i (name, w) = true.
Proof.
  intros G H. unfold stage_present, stage_scores. cbn [fst]. rewrite G.
  now apply _load_stage_has_input.
Qed.

(** X25. When docking reads the DTI file and MM-GBSA reads the docking
    file, every MM-GBSA pair is a docking pair and a DTI pair with the
    same partner type, no stage has more rows than the one before, and
    every input of the DTI file is present in all three stages: the
    aggregator then fuses three rank lists for it, with the configured
    weights and no stage dropped. *)
Theorem stages_in_sequence_keep_inputs (config : Config)
    (dti_rows docking_rows mmgbsa_rows : list Row) :
  run_docking config (Some dti_rows) = Ok docking_rows ->
  run_mmgbsa config (Some docking_rows) = Ok mmgbsa_rows ->
  let stage_data := stage_data_of dti_rows docking_rows mmgbsa_rows in
  (forall row, In row mmgbsa_rows ->
     exists a b,
       In a docking_rows /\ In b dti_rows
       /\ input_id a = input_id row /\ partner_id a = partner_id row
       /\ input_id b = input_id row /\ partner_id b = partner_id row
       /\ partner_type b = partner_type row)
  /\ (length mmgbsa_rows <= length docking_rows <= length dti_rows)%nat
  /\ forall i,
       (exists row, In row dti_rows /\ input_id row = i) ->
       surviving stage_data (configured_weights config) i
       = zip stage_names (configured_weights config)
       /\ fusion_arguments stage_data (configured_weights config) i
          = Some ([ranked_partners stage_data i "dti";
                   ranked_partners stage_data i "docking";
                   ranked_partners stage_data i "mmgbsa"],
                  normalize_weights (configured_weights config)).
Proof.
  intros [= <-] [= <-]. cbv zeta.
  set (k1 := Z.max 1 (docking_top_k (pipeline config))).
  set (k2 := Z.max 1 (mmgbsa_top_k (pipeline config))).
  assert (H1 : 1 <= k1) by (unfold k1; lia).
  assert (H2 : 1 <= k2) by (unfold k2; lia).
  split; [|split].
  - intros row Hrow.
    apply rescore_rows_source in Hrow.
    destruct Hrow as (a & Ha & Hia & Hpa & Hta).
    destruct (rescore_rows_source _ _ _ _ Ha) as (b & Hb & Hib & Hpb & Htb).
    exists a, b. repeat split; try assumption; congruence.
  - split; apply rescore_rows_length.
  - intros i (row & Hrow & Hi).
    destruct (rescore_rows_keeps_input "docking" k1 dti_rows row H1 Hrow)
      as (a & Ha & Hia & _).
    destruct (rescore_rows_keeps_input "mmgbsa" k2 _ a H2 Ha)
      as (b & Hb & Hib & _).
    destruct (stage_data_of_get dti_rows (rescore_rows "docking" k1 dti_rows)
                (rescore_rows "mmgbsa" k2 (rescore_rows "docking" k1 dti_rows)))
      as (Gd & Gk & Gm).
    assert (Hs : surviving
                   (stage_data_of dti_rows (rescore_rows "docking" k1 dti_rows)
                      (rescore_rows "mmgbsa" k2
                                    (rescore_rows "docking" k1 dti_rows)))
                   (configured_weights config) i
                 = zip stage_names (configured_weights config)).
    { unfold surviving. apply filter_all_true. intros [name w] Hin.
      cbn in Hin. destruct Hin as [[= <- <-] | [[= <- <-] | [[= <- <-] | []]]].
      - eapply stage_present_stage_data; [exact Gd|]. now exists row.
      - eapply stage_present_stage_data; [exact Gk|]. exists a.
        split; [exact Ha | congruence].
      - eapply stage_present_stage_data; [exact Gm|]. exists b.
        split; [exact Hb | congruence]. }
    split; [exact Hs|].
    unfold fusion_arguments.
    destruct (collect_stages_fold
                (stage_data_of dti_rows (rescore_rows "docking" k1 dti_rows)
                   (rescore_rows "mmgbsa" k2 (rescore_rows "docking" k1 dti_rows)))
                i (zip stage_names (configured_weights config))
                (mkCollected [] [] [] [])) as [Hl Hw].
    cbv zeta in Hl, Hw. cbn [rank_lists stage_weights_kept app] in Hl, Hw.
    unfold surviving in Hs. rewrite Hs in Hl, Hw.
    unfold collect_stages. rewrite Hl, Hw. reflexivity.
Qed.

Lemma stages_in_sequence_keep_inputs_witness :
  (forall row, In row sample_pipeline_mmgbsa ->
     exists a b,
       In a sample_pipeline_docking /\ In b sample_dti_rows
       /\ input_id a = input_id row /\ partner_id a = partner_id row
       /\ input_id b = input_id row /\ partner_id b = partner_id row
       /\ partner_type b = partner_type row)
  /\ (length sample_pipeline_mmgbsa <= length sample_pipeline_docking
      <= length sample_dti_rows)%nat
  /\ forall i,
       (exists row, In row sample_dti_rows /\ input_id row = i) ->
       surviving (stage_data_of sample_dti_rows sample_pipeline_docking
                                sample_pipeline_mmgbsa)
                 (configured_weights example_config) i
       = zip stage_names (configured_weights example_config)
       /\ fusion_arguments
            (stage_data_of sample_dti_rows sample_pipeline_docking
                           sample_pipeline_mmgbsa)
            (configured_weights example_config) i
          = Some ([ranked_partners
                     (stage_data_of sample_dti_rows sample_pipeline_docking
                                    sample_pipeline_mmgbsa) i "dti";
                   ranked_partners
                     (stage_data_of sample_dti_rows sample_pipeline_docking
                                    sample_pipeline_mmgbsa) i "docking";
                   ranked_partners
                     (stage_data_of sample_dti_rows sample_pipeline_docking
                                    sample_pipeline_mmgbsa) i "mmgbsa"],
                  normalize_weights (configured_weights example_config)).
Proof.
  apply (stages_in_sequence_keep_inputs example_config sample_dti_rows
           sample_pipeline_docking sample_pipeline_mmgbsa); reflexivity.
Defined.

(* ------------------------------------------------------------------ *)
(** ** consensus.py: agreement between the rankings *)







